(** * Test harness and KFP patch shim of the wandb client

  A shallow embedding of [tests/conftest.py] (mock-server supervisor and
  the environment/sandbox fixtures) and of
  [wandb/integration/kfp/kfp_patch.py] (the monkey-patching shim),
  followed by the properties that the harness specification states
  about them.

  Conventions of the embedding:
  - a Python call that may raise returns [result A = exn + A];
  - console output, HTTP requests, sleeps and process control are
    recorded, in order, in a list of [event]s;
  - everything the outside world decides (how the child process answers,
    what the log file holds, ...) is an explicit oracle argument. *)

From Stdlib Require Import String Ascii List ZArith Lia Bool.
From stdpp Require Import base option list numbers strings pretty gmap fin_maps.

Local Open Scope string_scope.
Local Open Scope Z_scope.
Local Open Scope list_scope.

(** ** Python exceptions and the error monad *)

Module Py.

(** The exception classes that the modelled code raises or lets through. *)
Inductive exn : Type :=
| ValueError (msg : string)
| TypeError (msg : string)
| KeyError (key : string)
| AttributeError (obj attr : string)
| RequestException (detail : string)
| JSONDecodeError
| OSError (detail : string).

Definition result (A : Type) : Type := exn + A.

Definition ok {A} (a : A) : result A := inr a.
Definition raise {A} (e : exn) : result A := inl e.

Definition bind {A B} (m : result A) (k : A -> result B) : result B :=
  match m with
  | inl e => inl e
  | inr a => k a
  end.

Definition raises {A} (m : result A) : Prop := exists e, m = inl e.

(** [x ← m; k] sequences two fallible steps. *)
#[global] Instance result_ret : MRet result := @ok.
#[global] Instance result_bind : MBind result := fun A B k m => bind m k.

(** A Python statement over interpreter state [S]: it changes the state
    and completes with a value or raises; what it did to the state
    before raising stays done. *)
Definition stateful (S A : Type) : Type := S -> S * result A.

#[global] Instance stateful_ret {S} : MRet (stateful S) := fun A a st => (st, ok a).
#[global] Instance stateful_bind {S} : MBind (stateful S) := fun A B k m st =>
  match m st with
  | (st', inr a) => k a st'
  | (st', inl e) => (st', inl e)
  end.

End Py.

(** ** tests/conftest.py: the mock-server supervisor *)

Module MockServer.
Import Py.

(** A Python 3 [str] read from the log file, which is opened in text
    mode: a sequence of Unicode code points. *)
Definition text : Type := list N.

(** The text of an ASCII literal. *)
Definition text_of (s : string) : text :=
  List.map N_of_ascii (list_ascii_of_string s).

(** Messages written by [print].  The wall-clock reading that one of them
    carries ([time.time()]) is left out. *)
Inductive message : Type :=
| MsgAttempting (status_code : Z)
    (* "Attempting to connect but got: %s" % res *)
| MsgTimedOut (base_url : string)
    (* "Timed out waiting for server to start...", server.base_url, time.time() *)
| MsgListening (port : Z)
    (* "Mock server listing on %s see tests/logs/live_mock_server.log" *)
| MsgFailedToLaunch
    (* "Server failed to launch, see tests/logs/live_mock_server.log" *)
| MsgRule
    (* "=" * 40 *)
| MsgLogLine (line : text)
    (* l.strip() for a line of the log file, as code points *)
| MsgException (e : exn).
    (* "EXCEPTION:", e *)

Inductive method : Type := GET | PUT | DELETE.

(** Observable actions of the supervisor, in program order. *)
Inductive event : Type :=
| EvPopen (port : Z)
| EvRequest (m : method) (url : string) (json : option string) (timeout : option Z)
| EvPrint (msg : message)
| EvPoll (rc : option Z)
| EvSleep (seconds : Z)
| EvTerminate.

(** What [requests.get(..., timeout=5)] does on one liveness attempt:
    it returns a response, or raises a [RequestException] (connection
    refused, timeout, ...). *)
Inductive get_outcome : Type :=
| Response (status_code : Z)
| Raises (detail : string).

(** The outside world during one run of [start_mock_server]. *)
Record world : Type := World {
  free_port : Z;                       (* utils.free_port() *)
  liveness : nat -> get_outcome;       (* outcome of the i-th liveness request *)
  poll : nat -> option Z;              (* server.poll() during the i-th attempt:
                                          None while the child runs, else its exit code *)
  terminate_poll : option Z;           (* what server.terminate() finds: from Python 3.9
                                          on it polls before it signals, and fills in
                                          the exit code of a child that is gone; None
                                          while the child runs, and on older
                                          interpreters, which do not look *)
  log_readlines : result (list text)   (* open(log).readlines() at the end *)
}.

(** The [subprocess.Popen] object that becomes the global [server]:
    the two attributes set on it, and [returncode], which [poll] fills in. *)
Record handle : Type := Handle {
  _port : Z;
  base_url : string;
  returncode : option Z
}.

(** ["http://localhost:%i" % port] *)
Definition format_base_url (port : Z) : string :=
  "http://localhost:" +:+ pretty port.

Definition ctx_url (h : handle) : string := base_url h +:+ "/ctx".

Definition attempts : nat := 10.
Definition attempt_timeout : Z := 5.
Definition backoff : Z := 1.
Definition HTTP_OK : Z := 200.

(** How the [for i in range(10)] loop is left. *)
Inductive loop_exit : Type :=
| Started                 (* break with started = True *)
| Exhausted               (* range ran out, started = False *)
| Raised (e : exn).       (* exception leaving the loop *)

Definition liveness_request (h : handle) : event :=
  EvRequest GET (ctx_url h) None (Some attempt_timeout).

(** The loop body, iterated over the [n] indices [i, i+1, ...] that remain. *)
Fixpoint poll_loop (w : world) (h : handle) (n i : nat)
  : list event * handle * loop_exit :=
  match n with
  | O => ([], h, Exhausted)
  | S n' =>
    match liveness w i with
    | Response code =>
      if code =? HTTP_OK then ([liveness_request h], h, Started)
      else
        let '(tr, h', x) := poll_loop w h n' (S i) in
        (liveness_request h :: EvPrint (MsgAttempting code) :: tr, h', x)
    | Raises _ =>
      let h1 := {| _port := _port h; base_url := base_url h; returncode := poll w i |} in
      match poll w i with
      | None =>
        let '(tr, h', x) := poll_loop w h1 n' (S i) in
        (liveness_request h :: EvPrint (MsgTimedOut (base_url h)) :: EvPoll None
           :: EvSleep backoff :: tr, h', x)
      | Some rc =>
        ([liveness_request h; EvPrint (MsgTimedOut (base_url h)); EvPoll (Some rc)],
         h1, Raised (ValueError "Server failed to start."))
      end
    end
  end.

(** Python's [str.isspace] for one code point: the characters of
    Unicode's White_Space property and the four separators U+001C to
    U+001F. *)
Definition is_py_space (c : N) : bool :=
  ((9 <=? c) && (c <=? 13) || (28 <=? c) && (c <=? 32)
   || (c =? 133) || (c =? 160) || (c =? 5760)
   || (8192 <=? c) && (c <=? 8202)
   || (c =? 8232) || (c =? 8233) || (c =? 8239) || (c =? 8287)
   || (c =? 12288))%N.

Fixpoint lstrip (s : text) : text :=
  match s with
  | c :: s' => if is_py_space c then lstrip s' else s
  | [] => []
  end.

(** [str.strip()] *)
Definition strip (s : text) : text :=
  reverse (lstrip (reverse (lstrip s))).

(** [s] is [l] without its leading and its trailing whitespace. *)
Definition stripped (l s : text) : Prop :=
  exists pre post,
    l = pre ++ s ++ post /\
    forallb is_py_space pre = true /\ forallb is_py_space post = true /\
    (forall c, head s = Some c -> is_py_space c = false) /\
    (forall c, last s = Some c -> is_py_space c = false).

(** The [try: ... except Exception as e: print("EXCEPTION:", e)] block that
    prints the log file between two rules. *)
Definition dump_log (w : world) : list event :=
  match log_readlines w with
  | inr lines =>
    EvPrint MsgRule :: map (fun l => EvPrint (MsgLogLine (strip l))) lines
      ++ [EvPrint MsgRule]
  | inl e => [EvPrint MsgRule; EvPrint (MsgException e)]
  end.

Definition pretty_returncode (rc : option Z) : string :=
  match rc with None => "None" | Some c => pretty c end.

(** [server.terminate()]: nothing happens to a child whose exit code
    is known; otherwise the exit code is looked for before the signal is
    sent. *)
Definition terminate (w : world) (h : handle) : handle :=
  match returncode h with
  | Some _ => h
  | None => {| _port := _port h; base_url := base_url h;
               returncode := terminate_poll w |}
  end.

(** [start_mock_server()] together with the module state it leaves: the
    object bound to the global [server] (the assignment of line 76 comes
    before the loop, and the object is the one that [poll] and
    [terminate] update), the events of the run, and what the caller
    gets. *)
Definition start_mock_server_state (w : world)
  : handle * (list event * result handle) :=
  let port := free_port w in
  let server := {| _port := port; base_url := format_base_url port;
                   returncode := None |} in
  let '(tr, server, x) := poll_loop w server attempts 0 in
  match x with
  | Raised e => (server, (EvPopen port :: tr, raise e))
  | Started =>
    (server,
     (EvPopen port :: tr ++ [EvPrint (MsgListening (_port server))], ok server))
  | Exhausted =>
    let server := terminate w server in
    (server,
     (EvPopen port :: tr ++ EvTerminate :: EvPrint MsgFailedToLaunch :: dump_log w,
      raise (ValueError ("Failed to start server!  Exit code "
                         +:+ pretty_returncode (returncode server)))))
  end.

(** The events of the run and what the caller gets. *)
Definition start_mock_server (w : world) : list event * result handle :=
  (start_mock_server_state w).2.

(** The global [server] when [start_mock_server()] has ended, by return
    or by exception. *)
Definition global_server (w : world) : handle :=
  (start_mock_server_state w).1.

(** *** Properties of a run, as predicates on the oracle and the trace *)

(** The [i]-th liveness request is answered with status 200. *)
Definition answers_ok (w : world) (i : nat) : bool :=
  match liveness w i with
  | Response code => code =? HTTP_OK
  | Raises _ => false
  end.

(** The [i]-th liveness request raises and [server.poll()] then reports
    that the child has exited. *)
Definition exit_seen (w : world) (i : nat) : bool :=
  match liveness w i, poll w i with
  | Raises _, Some _ => true
  | _, _ => false
  end.

(** What the loop writes: requests, its two messages, polls and sleeps. *)
Definition loop_event (e : event) : Prop :=
  match e with
  | EvRequest _ _ _ _ | EvPoll _ | EvSleep _ => True
  | EvPrint (MsgAttempting _) | EvPrint (MsgTimedOut _) => True
  | _ => False
  end.

Definition is_request (e : event) : bool :=
  match e with EvRequest _ _ _ _ => true | _ => false end.

Definition requests_made (tr : list event) : nat :=
  length (List.filter is_request tr).

(** The events that follow the [i]-th request of a trace (from 0), if
    the trace has that many requests. *)
Fixpoint after_request (i : nat) (tr : list event) : option (list event) :=
  match tr with
  | [] => None
  | EvRequest _ _ _ _ :: tr' =>
    match i with
    | O => Some tr'
    | S i' => after_request i' tr'
    end
  | _ :: tr' => after_request i tr'
  end.

(** Every two consecutive requests of the trace have a sleep of
    [backoff] seconds between them.  [pending] tells that a request was
    seen and no backoff since. *)
Fixpoint backoff_between_from (pending : bool) (tr : list event) : bool :=
  match tr with
  | [] => true
  | EvRequest _ _ _ _ :: tr' => negb pending && backoff_between_from true tr'
  | EvSleep s :: tr' =>
    backoff_between_from (if s =? backoff then false else pending) tr'
  | _ :: tr' => backoff_between_from pending tr'
  end.

Definition backoff_between_attempts (tr : list event) : bool :=
  backoff_between_from false tr.

(** Sleeps are placed by the liveness check only: a poll that finds the
    child running is followed at once by a sleep of [backoff] seconds, a
    poll that finds it exited ends the trace, and no sleep occurs
    anywhere else. *)
Fixpoint backoff_after_live_poll (tr : list event) : bool :=
  match tr with
  | [] => true
  | EvPoll None :: EvSleep s :: tr' => (s =? backoff) && backoff_after_live_poll tr'
  | EvPoll None :: _ => false
  | EvPoll (Some _) :: tr' => match tr' with [] => true | _ => false end
  | EvSleep _ :: _ => false
  | _ :: tr' => backoff_after_live_poll tr'
  end.

(** The three steps of a failed startup: the child is terminated, the
    log is printed between two rules, an exception reaches the caller. *)
Definition log_dumped (w : world) (tr : list event) : Prop :=
  exists pre, tr = pre ++ dump_log w.

Definition failure_steps (w : world) (run : list event * result handle) : Prop :=
  In EvTerminate (fst run) /\ log_dumped w (fst run) /\ raises (snd run).

(** *** The context client closures attached to the handle *)

(** One HTTP exchange as the [requests] library presents it: the call
    raises, or yields a response whose body [.json()] decodes or rejects. *)
Record http := Http {
  send : method -> string -> option string -> result string; (* response body *)
  json_decode : string -> result string                     (* res.json() *)
}.

Definition request (net : http) (m : method) (url : string) (payload : option string)
  : list event * result string :=
  ([EvRequest m url payload None], send net m url payload).

(** [and_then c k] runs the pure fallible step [k] on the value of [c]. *)
Definition and_then {A B} (c : list event * result A) (k : A -> result B)
  : list event * result B :=
  (fst c, Py.bind (snd c) k).

Definition get_ctx (h : handle) (net : http) : list event * result string :=
  and_then (request net GET (ctx_url h) None) (json_decode net).

Definition set_ctx (h : handle) (payload : string) (net : http)
  : list event * result string :=
  and_then (request net PUT (ctx_url h) (Some payload)) (json_decode net).

Definition reset_ctx (h : handle) (net : http) : list event * result string :=
  and_then (request net DELETE (ctx_url h) None) (json_decode net).

(** *** Sample worlds *)

(** A network on which every request is refused. *)
Definition net_down : http :=
  {| send := fun _ _ _ => raise (RequestException "connection refused");
     json_decode := fun body => ok body |}.

(** A server that answers every request with its payload. *)
Definition net_echo : http :=
  {| send := fun _ _ payload => ok (default "{}" payload);
     json_decode := fun body => ok body |}.

(** The child refuses the first request, answers 503 to the second and
    200 from then on. *)
Definition w_up : world :=
  {| free_port := 8080;
     liveness := fun i => match i with
                          | O => Raises "refused"
                          | 1%nat => Response 503
                          | _ => Response 200 end;
     poll := fun _ => None;
     terminate_poll := None;
     log_readlines := inr [] |}.

(** The child crashes at once: the first request is refused and the
    child is found exited with code 1. *)
Definition w_crash : world :=
  {| free_port := 8080;
     liveness := fun _ => Raises "connection refused";
     poll := fun _ => Some 1;
     terminate_poll := Some 1;
     log_readlines := inr [text_of "Traceback"; text_of "ImportError"] |}.

(** The child stays alive but never listens. *)
Definition w_silent : world :=
  {| free_port := 8080;
     liveness := fun _ => Raises "connection refused";
     poll := fun _ => None;
     terminate_poll := None;
     log_readlines := inr [text_of " booting "] |}.

(** The child is alive and answers 503 once before it answers 200. *)
Definition w_busy : world :=
  {| free_port := 8080;
     liveness := fun i => match i with O => Response 503 | _ => Response 200 end;
     poll := fun _ => None;
     terminate_poll := None;
     log_readlines := inr [] |}.

(** The child is gone, and what holds the port answers 503 to every
    request: no request is refused, so the loop never looks at the child;
    [terminate] finds its exit code 1.  The log ends with a line that has
    a no-break space (U+00A0) at its end. *)
Definition w_gone : world :=
  {| free_port := 8080;
     liveness := fun _ => Response 503;
     poll := fun _ => Some 1;
     terminate_poll := Some 1;
     log_readlines := inr [text_of " exit " ++ [160%N; 10%N]] |}.

End MockServer.

(** ** tests/conftest.py: the per-test fixtures *)

Module Fixtures.
Import Py.

(** *** The mock server's context *)

(** Modelled from the spec: the request handlers of the mock server
    ([tests/utils/mock_server.py], not among the sources at hand).  The
    Context is a mapping from string keys to JSON values (kept as their
    text); [GET /ctx] returns it, [PUT /ctx] merges the supplied fields
    into it, [DELETE /ctx] clears it.  Every handler answers with the
    resulting context. *)
Definition serve (m : MockServer.method) (payload : gmap string string)
    (ctx : gmap string string) : gmap string string :=
  match m with
  | MockServer.GET => ctx
  | MockServer.PUT => payload ∪ ctx
  | MockServer.DELETE => ∅
  end.

(** *** Process state seen by the fixtures *)

(** [os.path.expanduser] as currently installed: the library function,
    or the closure [expand] of [local_netrc] around what was installed
    before ([origexpand]). *)
Inductive expander : Type :=
| Original
| Sandboxed (origexpand : expander).

Record state : Type := State {
  os_environ : gmap string string;    (* os.environ *)
  server_ctx : gmap string string;    (* the Context inside the server process *)
  cwd : list string;                  (* os.getcwd(), as path components *)
  expanduser : expander               (* os.path.expanduser *)
}.

Definition with_environ (e : gmap string string) (st : state) : state :=
  {| os_environ := e; server_ctx := server_ctx st; cwd := cwd st;
     expanduser := expanduser st |}.
Definition with_ctx (c : gmap string string) (st : state) : state :=
  {| os_environ := os_environ st; server_ctx := c; cwd := cwd st;
     expanduser := expanduser st |}.
Definition with_cwd (d : list string) (st : state) : state :=
  {| os_environ := os_environ st; server_ctx := server_ctx st; cwd := d;
     expanduser := expanduser st |}.
Definition with_expanduser (x : expander) (st : state) : state :=
  {| os_environ := os_environ st; server_ctx := server_ctx st; cwd := cwd st;
     expanduser := x |}.

(** A Python statement acting on that state. *)
Abbreviation io := (stateful state).

(** [try: body finally: cleanup] *)
Definition try_finally {A} (body : io A) (cleanup : io unit) : io A := fun st =>
  let '(st1, r) := body st in
  match cleanup st1 with
  | (st2, inl e) => (st2, inl e)
  | (st2, inr _) => (st2, r)
  end.

(** [c in s] for one character. *)
Fixpoint mentions (c : ascii) (s : string) : bool :=
  match s with
  | EmptyString => false
  | String c' s' => Ascii.eqb c' c || mentions c s'
  end.

Definition NUL : ascii := "000"%char.

(** Names that [os.environ] refuses (CPython 3 on POSIX): a name with a
    NUL character cannot be encoded; [putenv] rejects a name with [=];
    [setenv] fails on the empty name. *)
Definition setitem_error (k : string) : option exn :=
  if mentions NUL k then Some (ValueError "embedded null byte")
  else if mentions "=" k then Some (ValueError "illegal environment variable name")
  else if String.eqb k "" then Some (OSError "[Errno 22] Invalid argument")
  else None.

(** The same for [del]: [unsetenv] fails on the empty name and on a name
    with [=]. *)
Definition delitem_error (k : string) : option exn :=
  if mentions NUL k then Some (ValueError "embedded null byte")
  else if mentions "=" k || String.eqb k ""
       then Some (OSError "[Errno 22] Invalid argument")
  else None.

(** A name that both accept. *)
Definition legal_name (k : string) : bool :=
  negb (mentions NUL k || mentions "=" k || String.eqb k "").

(** [os.environ[k] = v]: the C library is asked first, and the mapping
    changes only if it accepts.  (Values are taken to hold no NUL
    character.) *)
Definition environ_setitem (k v : string) : io unit := fun st =>
  match setitem_error k with
  | Some e => (st, raise e)
  | None => (with_environ (<[k := v]> (os_environ st)) st, ok ())
  end.

(** [del os.environ[k]]: again the C library first, which does not mind
    an unset name; then the mapping, which does. *)
Definition environ_delitem (k : string) : io unit := fun st =>
  match delitem_error k with
  | Some e => (st, raise e)
  | None =>
    match os_environ st !! k with
    | Some _ => (with_environ (delete k (os_environ st)) st, ok ())
    | None => (st, raise (KeyError k))
    end
  end.

(** [server.reset_ctx()] of the server handle: one [DELETE /ctx]; [up]
    tells whether the server can be reached. *)
Definition server_reset_ctx (up : bool) : io unit := fun st =>
  if up then (with_ctx (serve MockServer.DELETE ∅ (server_ctx st)) st, ok ())
  else (st, raise (RequestException "connection refused")).

Definition DUMMY_API_KEY : string := "1824812581259009ca9981580f8f8a9012409eee".

(** Library code that the fixtures call and that these sources do not
    contain. *)
Record lib : Type := Lib {
  quote : string -> string;            (* urllib.parse.quote *)
  wandb_init : io unit;                (* wandb.init(...) *)
  wandb_join : io unit;                (* wandb.join() *)
  unset_globals : io unit;             (* unset_globals() *)
  mock_k8s : list (string * string);   (* utils.mock_k8s(mocker) *)
  mock_sagemaker : list (string * string); (* utils.mock_sagemaker(mocker) *)
  home_expanduser : string -> string   (* os.path.expanduser, as shipped *)
}.

(** *** live_mock_server *)

Definition live_mock_server_keys : list string :=
  ["WANDB_USERNAME"; "WANDB_BASE_URL"; "WANDB_ERROR_REPORTING"; "WANDB_API_KEY"].

(** The part of the fixture before [yield server]. *)
Definition live_mock_server_setup (L : lib) (server : MockServer.handle)
    (node_name : string) (up : bool) : io MockServer.handle :=
  environ_setitem "WANDB_USERNAME" (quote L node_name) ;;
  environ_setitem "WANDB_BASE_URL" (MockServer.base_url server) ;;
  environ_setitem "WANDB_ERROR_REPORTING" "false" ;;
  environ_setitem "WANDB_API_KEY" DUMMY_API_KEY ;;
  server_reset_ctx up ;;
  mret server.

(** The part after [yield]. *)
Definition live_mock_server_teardown : io unit :=
  environ_delitem "WANDB_USERNAME" ;;
  environ_delitem "WANDB_BASE_URL" ;;
  environ_delitem "WANDB_ERROR_REPORTING" ;;
  environ_delitem "WANDB_API_KEY".

(** How pytest drives a generator fixture around a test body: if the
    set-up raises, neither the body nor the rest of the fixture runs;
    otherwise the part after [yield] runs whether the body passed or
    raised.  The state at the start of the body is returned as well. *)
Definition with_fixture {R} (setup : io R) (teardown : io unit)
    (body : R -> io unit) : state -> state * option state * result unit := fun st =>
  match setup st with
  | (st1, inl e) => (st1, None, inl e)
  | (st1, inr r) =>
    let '(st2, outcome) := body r st1 in
    let '(st3, down) := teardown st2 in
    (st3, Some st1, match outcome with inl e => inl e | inr _ => down end)
  end.

Definition run_live_mock_server (L : lib) (server : MockServer.handle)
    (node_name : string) (up : bool) (body : MockServer.handle -> io unit)
  : state -> state * option state * result unit :=
  with_fixture (live_mock_server_setup L server node_name up)
               live_mock_server_teardown body.

(** *** wandb_init_run *)

(** A [dict] with string keys, in insertion order. *)
Fixpoint dict_setitem (k v : string) (d : list (string * string))
  : list (string * string) :=
  match d with
  | [] => [(k, v)]
  | (k', v') :: d' =>
    if decide (k = k') then (k, v) :: d' else (k', v') :: dict_setitem k v d'
  end.

(** [d.update(other)] *)
Definition dict_update (d other : list (string * string)) : list (string * string) :=
  fold_left (fun acc kv => dict_setitem kv.1 kv.2 acc) other d.

(** The entries of [args] that matter here, after [args.update(marker.kwargs)]. *)
Record wandb_args : Type := WandbArgs {
  k8s : option bool;
  sagemaker : bool;
  env : list (string * string)
}.

Definition default_wandb_args : wandb_args :=
  {| k8s := None; sagemaker := false; env := [] |}.

(** [mocks_from_args]: what it leaves in [args["env"]]. *)
Definition mocks_from_args (L : lib) (args : wandb_args) : list (string * string) :=
  let env1 := match k8s args with
              | Some _ => dict_update (env args) (mock_k8s L)
              | None => env args
              end in
  if sagemaker args then dict_update env1 (mock_sagemaker L) else env1.

(** [for k, v in args["env"].items(): os.environ[k] = v] *)
Fixpoint environ_set_all (d : list (string * string)) : io unit :=
  match d with
  | [] => mret ()
  | (k, v) :: d' => environ_setitem k v ;; environ_set_all d'
  end.

(** [for k, v in args["env"].items(): del os.environ[k]] *)
Fixpoint environ_del_all (d : list (string * string)) : io unit :=
  match d with
  | [] => mret ()
  | (k, _) :: d' => environ_delitem k ;; environ_del_all d'
  end.

(** The whole fixture around a test body.  The [try] block holds the
    set-up, the [yield] and [wandb.join()]; the body is entered only if
    the set-up did not raise, and [wandb.join()] runs after the body
    whatever its outcome (pytest resumes the generator normally). *)
Definition run_wandb_init_run (L : lib) (args : wandb_args) (body : io unit)
  : io unit :=
  let env := mocks_from_args L args in
  try_finally
    (fun st =>
       match (environ_set_all env ;; wandb_init L) st with
       | (st1, inl e) => (st1, inl e)
       | (st1, inr _) =>
         let '(st2, outcome) := body st1 in
         let '(st3, joined) := wandb_join L st2 in
         (st3, match outcome with inl e => inl e | inr _ => joined end)
       end)
    (unset_globals L ;; environ_del_all env).

(** A statement leaves the variable [k] of the environment alone. *)
Definition keeps_var {A} (k : string) (c : io A) : Prop :=
  forall st, os_environ (c st).1 !! k = os_environ st !! k.

(** The round trip that the specification asks of a fixture run: what was
    set before is set to the same value afterwards. *)
Definition restores_environ (final : state -> state) : Prop :=
  forall st k v, os_environ st !! k = Some v -> os_environ (final st) !! k = Some v.

(** *** A session of tests *)

(** [server.set_ctx(payload)], as a test body may call it. *)
Definition server_set_ctx (payload : gmap string string) : io unit := fun st =>
  (with_ctx (serve MockServer.PUT payload (server_ctx st)) st, ok ()).

(** A collected test: [live_mock_server] is requested by name only, it
    is not an autouse fixture. *)
Record test : Type := Test {
  node_name : string;
  uses_live_mock_server : bool;
  test_body : io unit
}.

(** Runs one test and reports the server Context as it was when the body
    started ([None] if the body never started). *)
Definition run_test (L : lib) (server : MockServer.handle) (up : bool) (t : test)
  : state -> state * option (gmap string string) := fun st =>
  if uses_live_mock_server t then
    let '(st', start, _) :=
      run_live_mock_server L server (node_name t) up (fun _ => test_body t) st in
    (st', server_ctx <$> start)
  else
    let '(st', _) := test_body t st in
    (st', Some (server_ctx st)).

(** The tests of a session run one after the other on the same process
    state and the same server; each comes with the reachability of the
    server during its set-up. *)
Fixpoint run_session (L : lib) (server : MockServer.handle)
    (tests : list (test * bool)) (st : state)
  : list (test * option (gmap string string)) :=
  match tests with
  | [] => []
  | (t, up) :: rest =>
    let '(st', seen) := run_test L server up t st in
    (t, seen) :: run_session L server rest st'
  end.

Definition starts_reset (seen : option (gmap string string)) : Prop :=
  forall ctx, seen = Some ctx -> ctx = ∅.

(** *** local_netrc *)

(** [needle in hay] on strings. *)
Fixpoint contains (needle hay : string) : bool :=
  String.prefix needle hay ||
  match hay with
  | String _ hay' => contains needle hay'
  | EmptyString => false
  end.

(** An absolute path from its components; the working directory is kept
    as the components of its real path, as [os.getcwd()] reports it. *)
Fixpoint path_of (d : list string) : string :=
  match d with
  | [] => ""
  | c :: d' => "/" +:+ c +:+ path_of d'
  end.

(** [os.path.realpath(name)] for a relative name of one component that
    is not itself a symbolic link: the name under the working directory. *)
Definition realpath (d : list string) (name : string) : string :=
  path_of (d ++ [name]).

(** The path [p] lies below the directory [root]. *)
Definition is_inside (root : list string) (p : string) : bool :=
  String.prefix (path_of root +:+ "/") p.

(** A call of [os.path.expanduser(path)] with working directory [d]; the
    closure [expand] reads the working directory when it is called. *)
Fixpoint call_expanduser (L : lib) (x : expander) (d : list string) (path : string)
  : string :=
  match x with
  | Original => home_expanduser L path
  | Sandboxed origexpand =>
    if contains "netrc" path then realpath d "netrc"
    else call_expanduser L origexpand d path
  end.

Definition os_path_expanduser (L : lib) (st : state) (path : string) : string :=
  call_expanduser L (expanduser st) (cwd st) path.

(** Entering [CliRunner().isolated_filesystem()]: a fresh temporary
    directory [tmp] becomes the working directory. *)
Definition isolated_filesystem (tmp : list string) : io unit := fun st =>
  (with_cwd tmp st, ok ()).

(** [monkeypatch.setattr(os.path, "expanduser", expand)], with
    [origexpand] bound to what was installed before. *)
Definition install_expand : io unit := fun st =>
  (with_expanduser (Sandboxed (expanduser st)) st, ok ()).

(** [local_netrc] up to its [yield]; [tmp] is the sandbox root.  (The
    empty [.netrc] file it creates there is not represented.) *)
Definition local_netrc_setup (tmp : list string) : io unit :=
  isolated_filesystem tmp ;; install_expand.

(** [local_settings] up to its [yield]: another isolated file system. *)
Definition local_settings_setup (tmp : list string) : io unit :=
  isolated_filesystem tmp.

(** [test_dir] up to its [yield]: [os.chdir(<root>/tests/logs/<test_name>)]. *)
Definition test_dir_setup (root : list string) (test_name : string) : io unit :=
  fun st => (with_cwd (root ++ ["tests"; "logs"; test_name]) st, ok ()).

(** *** Sample library, states and tests *)

Definition lib0 : lib :=
  {| quote := fun s => s;
     wandb_init := mret ();
     wandb_join := mret ();
     unset_globals := mret ();
     mock_k8s := [("KUBERNETES_SERVICE_HOST", "k8s")];
     mock_sagemaker := [("SM_TRAINING_ENV", "{}")];
     home_expanduser := fun p => "/home/dev" +:+ p |}.

Definition server0 : MockServer.handle :=
  {| MockServer._port := 8080; MockServer.base_url := "http://localhost:8080";
     MockServer.returncode := None |}.

(** A developer's shell with a real API key and an unrelated variable. *)
Definition st_dev : state :=
  {| os_environ := {[ "WANDB_API_KEY" := "secret"; "HOME" := "/home/dev" ]};
     server_ctx := ∅;
     cwd := ["home"; "dev"; "client"];
     expanduser := Original |}.

Definition test_writer : test :=
  {| node_name := "test_writer"; uses_live_mock_server := true;
     test_body := server_set_ctx {[ "a" := "1" ]} |}.

Definition test_plain : test :=
  {| node_name := "test_plain"; uses_live_mock_server := false;
     test_body := mret () |}.

End Fixtures.

(** ** wandb/integration/kfp/kfp_patch.py *)

Module KfpPatch.
Import Py.

(** *** patch and unpatch *)

(** A Python function object: its [__name__] and its identity. *)
Record pyobj : Type := PyObj { __name__ : string; ident : nat }.

#[global] Instance pyobj_eq_dec : EqDecision pyobj.
Proof. solve_decision. Defined.

(** The interpreter state that the shim touches: the attributes of the
    loaded modules, each module known by its [__name__], and the registry
    [wandb.patched] of [[module, name]] pairs per module name. *)
Record interp : Type := Interp {
  modules : gmap string (gmap string pyobj);
  patched : gmap string (list (string * string))
}.

Abbreviation py := (stateful interp).

Definition attr_of (st : interp) (module attr : string) : option pyobj :=
  modules st !! module ≫= (fun attrs => attrs !! attr).

(** [getattr(module, attr)] *)
Definition getattr (module attr : string) : py pyobj := fun st =>
  match attr_of st module attr with
  | Some v => (st, ok v)
  | None => (st, raise (AttributeError module attr))
  end.

(** [setattr(module, attr, v)] *)
Definition setattr (module attr : string) (v : pyobj) : py unit := fun st =>
  ({| modules := <[module := <[attr := v]> (default ∅ (modules st !! module))]>
                   (modules st);
      patched := patched st |}, ok ()).

(** [wandb.patched.setdefault(key, [])] *)
Definition patched_setdefault (key : string) : py unit := fun st =>
  match patched st !! key with
  | Some _ => (st, ok ())
  | None => ({| modules := modules st; patched := <[key := []]> (patched st) |}, ok ())
  end.

(** [wandb.patched[key]] *)
Definition patched_getitem (key : string) : py (list (string * string)) := fun st =>
  match patched st !! key with
  | Some entries => (st, ok entries)
  | None => (st, raise (KeyError key))
  end.

(** [wandb.patched[key] = entries] *)
Definition patched_setitem (key : string) (entries : list (string * string))
  : py unit := fun st =>
  ({| modules := modules st; patched := <[key := entries]> (patched st) |}, ok ()).

Definition orig_ (name : string) : string := "orig_" +:+ name.

Definition patch (func : pyobj) (module : string) : py unit :=
  patched_setdefault module ;;
  orig ← getattr module (__name__ func);
  setattr module (orig_ (__name__ func)) orig ;;
  setattr module (__name__ func) func ;;
  entries ← patched_getitem module;
  patched_setitem module (entries ++ [(module, __name__ func)]).

(** The loop of [unpatch].  Its target variable is called [module] as
    well, so after the loop [module] is the module of the last entry. *)
Fixpoint restore_all (entries : list (string * string)) (module : string)
  : py string :=
  match entries with
  | [] => mret module
  | (module', func) :: rest =>
    orig ← getattr module' (orig_ func);
    setattr module' func orig ;;
    restore_all rest module'
  end.

Definition unpatch (module : string) : py unit :=
  entries ← patched_getitem module;
  module' ← restore_all entries module;
  patched_setitem module' [].

(** The registry entry of [module] is sound: its pairs name [module]
    itself and the saved original of each is still on the module. *)
Definition registry_ok (st : interp) (module : string) : Prop :=
  Forall (fun e => e.1 = module /\ is_Some (attr_of st module (orig_ e.2)))
         (default [] (patched st !! module)).


(** *** _get_function_source_definition *)

Definition newline : ascii := "010"%char.
Definition dquote : ascii := "034"%char.

(** [s.split(sep)] for a separator of one character. *)
Fixpoint split (sep : ascii) (s : string) : list string :=
  match s with
  | EmptyString => [EmptyString]
  | String c s' =>
    if decide (c = sep) then EmptyString :: split sep s'
    else match split sep s' with
         | [] => [String c EmptyString]
         | line :: lines => String c line :: lines
         end
  end.

(** [sep.join(lines)] *)
Fixpoint join (sep : string) (lines : list string) : string :=
  match lines with
  | [] => EmptyString
  | [line] => line
  | line :: lines' => line +:+ sep +:+ join sep lines'
  end.

(** The two standard-library functions that the function calls. *)
Record source_lib : Type := SourceLib {
  getsource : pyobj -> result string;   (* inspect.getsource *)
  dedent : string -> string             (* textwrap.dedent *)
}.

Definition _get_function_source_definition (S : source_lib) (func : pyobj)
  : result string :=
  func_code ← getsource S func;
  let func_code := dedent S func_code in
  let func_code_lines := split newline func_code in
  match func_code_lines with
  | [] =>
    raise (ValueError ("Failed to dedent and clean up the source of function "
                       +:+ String dquote (__name__ func)
                       +:+ String dquote ". It is probably not properly indented."))
  | _ => ok (join (String newline EmptyString) func_code_lines)
  end.

(** *** create_component_from_func *)

Record component_spec : Type := ComponentSpec {
  spec_func : pyobj;
  spec_extra_code : string;
  spec_base_image : option string;
  spec_packages : list string;
  metadata : option (list (string * string))
}.

(** Calls into the kfp library, in program order. *)
Inductive kfp_call : Type :=
| FuncToComponentSpec (func : pyobj) (extra_code : string)
    (base_image : option string) (packages_to_install : list string)
| MetadataSpec (annotations : list (string * string))
| Save (spec : component_spec) (file : string)
| CreateTaskFactory (spec : component_spec).

(** The kfp library is not among the sources; any call into it may
    raise ([_func_to_component_spec] when it cannot get the source of
    the function, [structures.MetadataSpec] where kfp has no such class,
    [save] when the file cannot be written, ...). *)
Record kfp_lib : Type := KfpLib {
  kfp_raises : kfp_call -> option exn
}.

(** The interpreter state that the function touches: the list objects,
    by identity, and the calls made into kfp so far. *)
Record kfp_state : Type := KfpState {
  lists : nat -> list string;
  calls : list kfp_call
}.

Abbreviation kfp := (stateful kfp_state).

(** A call into kfp: it is made, and then returns or raises. *)
Definition call (K : kfp_lib) (c : kfp_call) : kfp unit := fun st =>
  ({| lists := lists st; calls := calls st ++ [c] |},
   match kfp_raises K c with
   | Some e => raise e
   | None => ok ()
   end).

(** What a caller may pass as [packages_to_install]: [None], or a list
    object. *)
Inductive pyval : Type :=
| PyNone
| PyList (id : nat).

(** [x += y] for a list [y]: a list object is extended in place and
    stays bound to the name; [None] has no [__iadd__] and no [__add__]
    that takes a list. *)
Definition iadd (x : pyval) (y : list string) : kfp nat := fun st =>
  match x with
  | PyList id =>
    ({| lists := fun id' => if decide (id' = id) then lists st id ++ y
                            else lists st id';
        calls := calls st |},
     ok id)
  | PyNone =>
    (st, raise (TypeError
                  "unsupported operand type(s) for +=: 'NoneType' and 'list'"))
  end.

(** [_func_to_component_spec(...)]; the specification records what the
    list held when it was handed over. *)
Definition _func_to_component_spec (K : kfp_lib) (func : pyobj) (extra_code : string)
    (base_image : option string) (packages_to_install : nat)
  : kfp component_spec := fun st =>
  let packages := lists st packages_to_install in
  (call K (FuncToComponentSpec func extra_code base_image packages) ;;
   mret {| spec_func := func; spec_extra_code := extra_code;
           spec_base_image := base_image; spec_packages := packages;
           metadata := None |}) st.

(** Truth value of an optional mapping or string. *)
Definition truthy_list {A} (x : option (list A)) : bool :=
  match x with Some (_ :: _) => true | _ => false end.
Definition truthy_string (x : option string) : bool :=
  match x with Some (String _ _) => true | _ => false end.

(** The task factory; [component_spec] is the attribute of that name. *)
Record task_factory : Type := TaskFactory { component_spec_of : component_spec }.

(** [_create_task_factory_from_component_spec(component_spec)] *)
Definition _create_task_factory_from_component_spec (K : kfp_lib)
    (spec : component_spec) : kfp task_factory :=
  call K (CreateTaskFactory spec) ;; mret {| component_spec_of := spec |}.

Definition create_component_from_func (K : kfp_lib) (func : pyobj)
    (extra_code : string) (output_component_file : option string)
    (base_image : option string) (packages_to_install : pyval)
    (annotations : option (list (string * string)))
  : kfp task_factory :=
  packages_to_install ← iadd packages_to_install ["wandb"];
  component_spec ← _func_to_component_spec K func extra_code base_image
                     packages_to_install;
  component_spec ←
    (if truthy_list annotations then
       call K (MetadataSpec (default [] annotations)) ;;
       mret {| spec_func := spec_func component_spec;
               spec_extra_code := spec_extra_code component_spec;
               spec_base_image := spec_base_image component_spec;
               spec_packages := spec_packages component_spec;
               metadata := annotations |}
     else mret component_spec);
  (if truthy_string output_component_file then
     call K (Save component_spec (default "" output_component_file))
   else mret ()) ;;
  _create_task_factory_from_component_spec K component_spec.

(** *** Sample objects *)

Definition kfp_components : string := "kfp.components".

Definition kfp_original : pyobj :=
  {| __name__ := "create_component_from_func"; ident := 0 |}.
Definition wandb_version : pyobj :=
  {| __name__ := "create_component_from_func"; ident := 1 |}.

Definition f_patch : pyobj := {| __name__ := "f"; ident := 12 |}.


Definition interp0 : interp :=
  {| modules := {[ kfp_components := {[ "create_component_from_func" := kfp_original ]} ]};
     patched := ∅ |}.

(** A kfp in which nothing raises; one without [structures.MetadataSpec];
    one that cannot get the source of any function. *)
Definition kfp_fine : kfp_lib := {| kfp_raises := fun _ => None |}.

Definition kfp_without_metadata : kfp_lib :=
  {| kfp_raises := fun c =>
       match c with
       | MetadataSpec _ =>
         Some (AttributeError "kfp.components.structures" "MetadataSpec")
       | _ => None
       end |}.

Definition kfp_without_source : kfp_lib :=
  {| kfp_raises := fun c =>
       match c with
       | FuncToComponentSpec _ _ _ _ => Some (OSError "could not get source code")
       | _ => None
       end |}.

(** The list object 0 holds one package; no call has been made. *)
Definition kfp_state0 : kfp_state :=
  {| lists := fun id => match id with O => ["pandas==0.24"] | _ => [] end;
     calls := [] |}.

Definition source0 : source_lib :=
  {| getsource := fun f => ok ("@op" +:+ String newline ("def " +:+ __name__ f +:+ "(): pass"));
     dedent := fun s => s |}.

End KfpPatch.

(** ** tests/conftest.py: the rest of the supervisor *)

Module Supervisor.
Import Py MockServer Fixtures.

(** Lines 72-74 of [start_mock_server]: [env = os.environ] is the
    environment object of the test process itself, so the two
    assignments change that environment; the same object is what
    [Popen] receives as [env]. *)
Definition environ : io (gmap string string) := fun st => (st, ok (os_environ st)).

Definition export_server_environment (port : Z) (root : string)
  : io (gmap string string) :=
  environ_setitem "PORT" (pretty port) ;;
  environ_setitem "PYTHONPATH" root ;;
  environ.

(** Seconds for which an event may block the caller at most: a request
    for its timeout, a sleep for its length. *)
Definition blocking_seconds (e : event) : Z :=
  match e with
  | EvRequest _ _ _ (Some timeout) => timeout
  | EvSleep seconds => seconds
  | _ => 0
  end.

Definition worst_case_seconds (tr : list event) : Z :=
  foldr (fun e acc => blocking_seconds e + acc) 0 tr.

Definition is_terminate (e : event) : bool :=
  match e with EvTerminate => true | _ => false end.

Definition terminations (tr : list event) : nat :=
  length (List.filter is_terminate tr).

(** Some attempt within the budget is answered with 200, and none
    before it found the child exited. *)
Definition comes_up (w : world) : Prop :=
  exists k, (k < attempts)%nat /\ answers_ok w k = true /\
            forall j, (j < k)%nat -> exit_seen w j = false.

End Supervisor.

(** ** tests/conftest.py: the other fixtures *)

Module MoreFixtures.
Import Py Fixtures.

(** *** How pytest drives a generator fixture *)

(** [setup] runs up to the [yield] and leaves the generator's local
    variables; if it raises, nothing else runs.  Otherwise the test body
    runs, and then the rest of the generator, whatever the body did. *)
Definition generator_fixture {S Loc} (setup : stateful S Loc)
    (teardown : Loc -> stateful S unit) (body : stateful S unit)
  : stateful S unit := fun st =>
  match setup st with
  | (st1, inl e) => (st1, inl e)
  | (st1, inr loc) =>
    let '(st2, outcome) := body st1 in
    let '(st3, down) := teardown loc st2 in
    (st3, match outcome with inl e => inl e | inr _ => down end)
  end.

(** *** test_name *)

(** [s.replace(old, new)] for [old] of one character. *)
Fixpoint replace_char (old : ascii) (new : string) (s : string) : string :=
  match s with
  | EmptyString => EmptyString
  | String c s' =>
    if decide (c = old) then new +:+ replace_char old new s'
    else String c (replace_char old new s')
  end.

(** [c in s] for one character. *)
Fixpoint has_char (c : ascii) (s : string) : bool :=
  match s with
  | EmptyString => false
  | String c' s' => bool_decide (c' = c) || has_char c s'
  end.

Fixpoint count_char (c : ascii) (s : string) : nat :=
  match s with
  | EmptyString => O
  | String c' s' => (if decide (c' = c) then 1 else 0) + count_char c s'
  end.

Definition lbracket : ascii := "091"%char.
Definition rbracket : ascii := "093"%char.

(** [request.node.name.replace("[", "__").replace("]", "__")] *)
Definition without_brackets (node_name : string) : string :=
  replace_char rbracket "__" (replace_char lbracket "__" node_name).

Definition test_name (L : lib) (node_name : string) : string :=
  quote L (without_brackets node_name).

(** *** test_dir *)

(** [os.getcwd()] and [os.chdir(d)] *)
Definition getcwd : io (list string) := fun st => (st, ok (cwd st)).
Definition chdir (d : list string) : io unit := fun st => (with_cwd d st, ok ()).

(** The fixture around a test body; [root] is the checkout, [name] the
    value of the [test_name] fixture.  (The directory tree that the
    set-up empties and recreates is not represented.) *)
Definition run_test_dir (root : list string) (name : string) (body : io unit)
  : io unit :=
  generator_fixture
    (orig_dir ← getcwd; test_dir_setup root name ;; mret orig_dir)
    (fun orig_dir => chdir orig_dir)
    body.

(** *** disable_console *)

Definition run_disable_console (body : io unit) : io unit :=
  generator_fixture (environ_setitem "WANDB_CONSOLE" "off")
                    (fun _ => environ_delitem "WANDB_CONSOLE")
                    body.

(** A statement leaves the whole environment as it is. *)
Definition keeps_environ {A} (c : io A) : Prop :=
  forall st, os_environ (c st).1 = os_environ st.

(** A statement never raises. *)
Definition never_raises {A} (c : io A) : Prop :=
  forall st, exists a, (c st).2 = ok a.

(** The environment [e] with the four variables of [live_mock_server]
    written over it. *)
Definition injected (L : lib) (server : MockServer.handle) (node_name : string)
    (e : gmap string string) : gmap string string :=
  <["WANDB_API_KEY" := DUMMY_API_KEY]>
    (<["WANDB_ERROR_REPORTING" := "false"]>
       (<["WANDB_BASE_URL" := MockServer.base_url server]>
          (<["WANDB_USERNAME" := quote L node_name]> e))).

(** [e] without the variables named in [keys]. *)
Definition without (keys : list string) (e : gmap string string)
  : gmap string string :=
  foldr delete e keys.

(** *** local_netrc: the file it creates *)

(** [open(".netrc", "wb").close()] with working directory [d]. *)
Definition netrc_file_created (d : list string) : string :=
  path_of (d ++ [".netrc"]).

(** *** restore_version and mocked_ipython *)

Section Namespace.
Context {V : Type}.

(** The attributes of one module object [obj] ([wandb], [wandb.jupyter]). *)
Definition getattr_ns (obj attr : string) : stateful (gmap string V) V := fun ns =>
  match ns !! attr with
  | Some v => (ns, ok v)
  | None => (ns, raise (AttributeError obj attr))
  end.

Definition setattr_ns (attr : string) (v : V) : stateful (gmap string V) unit :=
  fun ns => (<[attr := v]> ns, ok ()).

Definition delattr_ns (obj attr : string) : stateful (gmap string V) unit := fun ns =>
  match ns !! attr with
  | Some _ => (delete attr ns, ok ())
  | None => (ns, raise (AttributeError obj attr))
  end.

(** [try: c except AttributeError: pass] *)
Definition except_AttributeError (c : stateful (gmap string V) unit)
  : stateful (gmap string V) unit := fun ns =>
  match c ns with
  | (ns', inl (AttributeError _ _)) => (ns', ok ())
  | r => r
  end.

(** [restore_version] around a test body, on the attributes of [wandb]. *)
Definition run_restore_version (body : stateful (gmap string V) unit)
  : stateful (gmap string V) unit :=
  generator_fixture
    (getattr_ns "wandb" "__version__")
    (fun save_current_version =>
       setattr_ns "__version__" save_current_version ;;
       except_AttributeError (delattr_ns "wandb" "__hack_pypi_latest_version__"))
    body.

(** [mocked_ipython] around a test body, on the attributes of
    [wandb.jupyter]; [fake] is [lambda: ipython].  (The attribute that the
    fixture sets through [monkeypatch] is put back by pytest.) *)
Definition run_mocked_ipython (fake : V) (body : stateful (gmap string V) unit)
  : stateful (gmap string V) unit :=
  generator_fixture
    (orig_get_ipython ← getattr_ns "wandb.jupyter" "get_ipython";
     setattr_ns "get_ipython" fake ;;
     mret orig_get_ipython)
    (fun orig_get_ipython => setattr_ns "get_ipython" orig_get_ipython)
    body.

End Namespace.

(** *** mocked_module *)

(** What [wandb.util.get_module] hands out: whatever the library
    function itself returns for a name, or one of the [MagicMock]s made
    by the fixture. *)
Inductive module_obj : Type :=
| FromLibrary (name : string)
| MagicMock (serial : nat).

(** [wandb.util.get_module] as currently installed: the library function,
    or the closure [get_module] of [mock_get_module] around what was
    installed when it was made. *)
Inductive get_module_fn : Type :=
| LibraryGetModule
| Intercept (module : string) (mocked_module : module_obj)
            (orig_get_module : get_module_fn).

Fixpoint call_get_module (g : get_module_fn) (mod_ : string) : module_obj :=
  match g with
  | LibraryGetModule => FromLibrary mod_
  | Intercept module mocked_module orig_get_module =>
    if decide (mod_ = module) then mocked_module
    else call_get_module orig_get_module mod_
  end.

Record util : Type := Util {
  get_module : get_module_fn;   (* wandb.util.get_module *)
  mocks_made : nat              (* MagicMock() objects created so far *)
}.

(** [mock_get_module(module)] of the fixture. *)
Definition mock_get_module (module : string) : stateful util module_obj := fun st =>
  let mocked_module := MagicMock (mocks_made st) in
  ({| get_module := Intercept module mocked_module (get_module st);
      mocks_made := S (mocks_made st) |},
   ok mocked_module).

(** [mock_get_module] called for each name of a list in turn. *)
Fixpoint mock_all (names : list string) (st : util) : util :=
  match names with
  | [] => st
  | name :: rest => mock_all rest (mock_get_module name st).1
  end.

(** *** Sample values *)

Definition wandb_ns : gmap string string :=
  {[ "__version__" := "0.10.0"; "__name__" := "wandb" ]}.

End MoreFixtures.

(** ** wandb/integration/kfp/kfp_patch.py: the rest of the shim *)

Module KfpShim.
Import Py KfpPatch.

Definition kfp_python_op : string := "kfp.components._python_op".

(** The two functions of the shim that [patch_kfp] installs. *)
Definition wandb_create_component_from_func : pyobj :=
  {| __name__ := "create_component_from_func"; ident := 1 |}.
Definition wandb_get_function_source_definition : pyobj :=
  {| __name__ := "_get_function_source_definition"; ident := 2 |}.

(** [patch_kfp()], both kfp modules being importable. *)
Definition patch_kfp : py unit :=
  patch wandb_create_component_from_func kfp_components ;;
  patch wandb_get_function_source_definition kfp_python_op.

(** The kfp calls of one call of [create_component_from_func] with a
    list, in order; [packages] is what the list holds after the [+=]. *)
Definition spec_for (func : pyobj) (extra_code : string)
    (base_image : option string) (packages : list string)
    (annotations : option (list (string * string))) : component_spec :=
  {| spec_func := func; spec_extra_code := extra_code;
     spec_base_image := base_image; spec_packages := packages;
     metadata := if truthy_list annotations then annotations else None |}.

Definition expected_calls (func : pyobj) (extra_code : string)
    (output_component_file base_image : option string) (packages : list string)
    (annotations : option (list (string * string))) : list kfp_call :=
  let spec := spec_for func extra_code base_image packages annotations in
  [FuncToComponentSpec func extra_code base_image packages]
  ++ (if truthy_list annotations then [MetadataSpec (default [] annotations)] else [])
  ++ (if truthy_string output_component_file
      then [Save spec (default "" output_component_file)] else [])
  ++ [CreateTaskFactory spec].

(** Calls made one after the other until one raises: the calls made,
    and the exception of the last one if it raised. *)
Fixpoint until_raise (K : kfp_lib) (cs : list kfp_call)
  : list kfp_call * option exn :=
  match cs with
  | [] => ([], None)
  | c :: cs' =>
    match kfp_raises K c with
    | Some e => ([c], Some e)
    | None => let '(made, r) := until_raise K cs' in (c :: made, r)
    end
  end.

(** The arguments of one call besides [packages_to_install]. *)
Record component_args : Type := ComponentArgs {
  arg_func : pyobj;
  arg_extra_code : string;
  arg_output_component_file : option string;
  arg_base_image : option string;
  arg_annotations : option (list (string * string))
}.

(** One call after the other with the same value for
    [packages_to_install], each on the state the one before left,
    whatever its outcome was. *)
Fixpoint create_in_turn (K : kfp_lib) (packages_to_install : pyval)
    (args : list component_args) (st : kfp_state) : kfp_state :=
  match args with
  | [] => st
  | a :: rest =>
    create_in_turn K packages_to_install rest
      (create_component_from_func K (arg_func a) (arg_extra_code a)
         (arg_output_component_file a) (arg_base_image a) packages_to_install
         (arg_annotations a) st).1
  end.

(** The functions handed to [_func_to_component_spec], each with the
    packages handed over with it. *)
Definition conversion (c : kfp_call) : option (pyobj * list string) :=
  match c with
  | FuncToComponentSpec func _ _ packages => Some (func, packages)
  | _ => None
  end.

Definition conversions (cs : list kfp_call) : list (pyobj * list string) :=
  omap conversion cs.

(** *** Sample values *)

Definition get_source_original : pyobj :=
  {| __name__ := "_get_function_source_definition"; ident := 3 |}.

Definition interp_kfp : interp :=
  {| modules :=
       {[ kfp_components := {[ "create_component_from_func" := kfp_original ]};
          kfp_python_op :=
            {[ "_get_function_source_definition" := get_source_original ]} ]};
     patched := ∅ |}.

(** A kfp whose [_python_op] module has no such function. *)
Definition func_to_component_spec_original : pyobj :=
  {| __name__ := "_func_to_component_spec"; ident := 4 |}.

Definition interp_kfp_other : interp :=
  {| modules :=
       {[ kfp_components := {[ "create_component_from_func" := kfp_original ]};
          kfp_python_op :=
            {[ "_func_to_component_spec" := func_to_component_spec_original ]} ]};
     patched := ∅ |}.

End KfpShim.

(** ** The supervisor on sample worlds *)

Module MockServerTests.
Import Py MockServer.

Example start_up :
  start_mock_server w_up =
  ([EvPopen 8080;
    EvRequest GET "http://localhost:8080/ctx" None (Some 5);
    EvPrint (MsgTimedOut "http://localhost:8080"); EvPoll None; EvSleep 1;
    EvRequest GET "http://localhost:8080/ctx" None (Some 5);
    EvPrint (MsgAttempting 503);
    EvRequest GET "http://localhost:8080/ctx" None (Some 5);
    EvPrint (MsgListening 8080)],
   inr {| _port := 8080; base_url := "http://localhost:8080"; returncode := None |}).
Proof. vm_compute. reflexivity. Qed.

Example strip_line : strip (text_of "  ok " ++ [10%N]) = text_of "ok".
Proof. reflexivity. Qed.

(** A no-break space and a next-line character in front, an em space and
    an ideographic space behind; a zero-width space is no whitespace. *)
Example strip_unicode :
  strip ([160; 133] ++ text_of "ok" ++ [8195; 12288])%N = text_of "ok" /\
  strip [8203%N] = [8203%N].
Proof. split; reflexivity. Qed.

Example exhausted_with_child_gone :
  start_mock_server w_gone
  = ([EvPopen 8080] ++
     concat (replicate 10
       [EvRequest GET "http://localhost:8080/ctx" None (Some 5);
        EvPrint (MsgAttempting 503)]) ++
     [EvTerminate; EvPrint MsgFailedToLaunch; EvPrint MsgRule;
      EvPrint (MsgLogLine (text_of "exit")); EvPrint MsgRule],
     raise (ValueError "Failed to start server!  Exit code 1")).
Proof. vm_compute. reflexivity. Qed.

End MockServerTests.

(** ** Properties of the supervisor *)

Module MockServerSpec.
Import Py MockServer.
Local Open Scope nat_scope.

Implicit Types (w : world) (h : handle) (n i j k : nat) (tr : list event).

(** The loop never touches the port or the base URL of the handle. *)
Lemma poll_loop_handle w h n i :
  _port (poll_loop w h n i).1.2 = _port h /\
  base_url (poll_loop w h n i).1.2 = base_url h.
Proof.
  revert h i. induction n as [|n IH]; intros h i; simpl; [done|].
  destruct (liveness w i) as [code|d].
  - destruct (code =? HTTP_OK)%Z; [done|].
    specialize (IH h (S i)).
    destruct (poll_loop w h n (S i)) as [[tr h'] x]. exact IH.
  - destruct (poll w i) as [rc|]; [done|].
    match goal with |- context [poll_loop w ?h1 n (S i)] =>
      specialize (IH h1 (S i)); destruct (poll_loop w h1 n (S i)) as [[tr h'] x]
    end.
    exact IH.
Qed.

(** The three exits of the loop, told apart by the oracle.  First: no
    attempt is answered with 200 and none finds the child exited. *)
Lemma poll_loop_exhausted w h n i :
  returncode h = None ->
  (forall j, j < n -> answers_ok w (i + j) = false /\ exit_seen w (i + j) = false) ->
  (poll_loop w h n i).2 = Exhausted /\
  returncode (poll_loop w h n i).1.2 = None /\
  ~ In EvTerminate (poll_loop w h n i).1.1.
Proof.
  revert h i. induction n as [|n IH]; intros h i Hnone Hall; simpl.
  { split_and!; auto. }
  destruct (Hall 0 ltac:(lia)) as [Hok Hexit].
  rewrite Nat.add_0_r in Hok, Hexit.
  unfold answers_ok in Hok. unfold exit_seen in Hexit.
  assert (Hall' : forall j, j < n ->
            answers_ok w (S i + j) = false /\ exit_seen w (S i + j) = false).
  { intros j Hj. replace (S i + j) with (i + S j) by lia. apply Hall. lia. }
  destruct (liveness w i) as [code|d].
  - rewrite Hok.
    specialize (IH h (S i) Hnone Hall').
    destruct (poll_loop w h n (S i)) as [[tr h'] x]. simpl in *.
    destruct IH as (-> & Hrc & Hterm). split_and!; auto.
    intros [?|[?|?]]; [discriminate|discriminate|auto].
  - destruct (poll w i) as [rc|] eqn:Hpoll; [discriminate|].
    match goal with |- context [poll_loop w ?h1 n (S i)] =>
      specialize (IH h1 (S i) eq_refl Hall');
      destruct (poll_loop w h1 n (S i)) as [[tr h'] x]
    end.
    simpl in *. destruct IH as (-> & Hrc & Hterm). split_and!; auto.
    intros [?|[?|[?|[?|?]]]]; try discriminate; auto.
Qed.

(** Second: some attempt finds the child exited, before any answer 200. *)
Lemma poll_loop_exit_seen w h n i k :
  k < n ->
  exit_seen w (i + k) = true ->
  (forall j, j < k -> answers_ok w (i + j) = false) ->
  (poll_loop w h n i).2 = Raised (ValueError "Server failed to start.") /\
  ~ In EvTerminate (poll_loop w h n i).1.1.
Proof.
  revert h i k. induction n as [|n IH]; intros h i k Hk Hexit Hbefore; [lia|].
  simpl.
  destruct k as [|k].
  - rewrite Nat.add_0_r in Hexit. unfold exit_seen in Hexit.
    destruct (liveness w i) as [code|d]; [discriminate|].
    destruct (poll w i) as [rc|]; [|discriminate].
    simpl. split; [done|]. intros [?|[?|[?|?]]]; try discriminate; auto.
  - assert (Hexit' : exit_seen w (S i + k) = true).
    { replace (S i + k) with (i + S k) by lia. exact Hexit. }
    assert (Hbefore' : forall j, j < k -> answers_ok w (S i + j) = false).
    { intros j Hj. replace (S i + j) with (i + S j) by lia. apply Hbefore. lia. }
    pose proof (Hbefore 0 ltac:(lia)) as Hok. rewrite Nat.add_0_r in Hok.
    unfold answers_ok in Hok.
    destruct (liveness w i) as [code|d].
    + rewrite Hok.
      specialize (IH h (S i) k ltac:(lia) Hexit' Hbefore').
      destruct (poll_loop w h n (S i)) as [[tr h'] x]. simpl in *.
      destruct IH as [-> Hterm]. split; [done|].
      intros [?|[?|?]]; try discriminate; auto.
    + destruct (poll w i) as [rc|].
      { simpl. split; [done|]. intros [?|[?|[?|?]]]; try discriminate; auto. }
      match goal with |- context [poll_loop w ?h1 n (S i)] =>
        specialize (IH h1 (S i) k ltac:(lia) Hexit' Hbefore');
        destruct (poll_loop w h1 n (S i)) as [[tr h'] x]
      end.
      simpl in *. destruct IH as [-> Hterm]. split; [done|].
      intros [?|[?|[?|[?|?]]]]; try discriminate; auto.
Qed.

(** Third: some attempt is answered with 200, and no attempt before it
    found the child exited. *)
Lemma poll_loop_started w h n i k :
  k < n ->
  answers_ok w (i + k) = true ->
  (forall j, j < k -> exit_seen w (i + j) = false) ->
  (poll_loop w h n i).2 = Started.
Proof.
  revert h i k. induction n as [|n IH]; intros h i k Hk Hok Hbefore; [lia|].
  simpl.
  destruct k as [|k].
  - rewrite Nat.add_0_r in Hok. unfold answers_ok in Hok.
    destruct (liveness w i) as [code|d]; [|discriminate].
    rewrite Hok. done.
  - assert (Hok' : answers_ok w (S i + k) = true).
    { replace (S i + k) with (i + S k) by lia. exact Hok. }
    assert (Hbefore' : forall j, j < k -> exit_seen w (S i + j) = false).
    { intros j Hj. replace (S i + j) with (i + S j) by lia. apply Hbefore. lia. }
    pose proof (Hbefore 0 ltac:(lia)) as Hex. rewrite Nat.add_0_r in Hex.
    unfold exit_seen in Hex.
    destruct (liveness w i) as [code|d].
    + destruct (code =? HTTP_OK)%Z; [done|].
      specialize (IH h (S i) k ltac:(lia) Hok' Hbefore').
      destruct (poll_loop w h n (S i)) as [[tr h'] x]. exact IH.
    + destruct (poll w i) as [rc|]; [discriminate|].
      match goal with |- context [poll_loop w ?h1 n (S i)] =>
        specialize (IH h1 (S i) k ltac:(lia) Hok' Hbefore');
        destruct (poll_loop w h1 n (S i)) as [[tr h'] x]
      end.
      exact IH.
Qed.

(** At most one request per index of the range, each of them the
    liveness request with the fixed timeout. *)
Lemma poll_loop_requests w h n i :
  requests_made (poll_loop w h n i).1.1 <= n /\
  Forall (fun e => is_request e = true -> e = liveness_request h)
         (poll_loop w h n i).1.1.
Proof.
  revert h i. induction n as [|n IH]; intros h i; simpl.
  { split; [done | constructor]. }
  destruct (liveness w i) as [code|d].
  - destruct (code =? HTTP_OK)%Z.
    { split; [cbn; lia | repeat constructor]. }
    specialize (IH h (S i)).
    destruct (poll_loop w h n (S i)) as [[tr h'] x]. simpl in *.
    destruct IH as [Hn Hall]. split; [unfold requests_made in *; cbn; lia|].
    repeat constructor; [discriminate | exact Hall].
  - destruct (poll w i) as [rc|].
    { split; [unfold requests_made; cbn; lia|].
      repeat constructor; discriminate. }
    match goal with |- context [poll_loop w ?h1 n (S i)] =>
      specialize (IH h1 (S i)); destruct (poll_loop w h1 n (S i)) as [[tr h'] x]
    end.
    simpl in *. destruct IH as [Hn Hall].
    split; [unfold requests_made in *; cbn; lia|].
    repeat constructor; try discriminate. exact Hall.
Qed.


(** Placement of the sleeps inside the loop, whatever follows the loop. *)
Lemma poll_loop_backoff w h n i :
  match (poll_loop w h n i).2 with
  | Raised _ => backoff_after_live_poll (poll_loop w h n i).1.1 = true
  | _ => forall suffix,
      backoff_after_live_poll ((poll_loop w h n i).1.1 ++ suffix)
      = backoff_after_live_poll suffix
  end.
Proof.
  revert h i. induction n as [|n IH]; intros h i; simpl; [done|].
  destruct (liveness w i) as [code|d].
  - destruct (code =? HTTP_OK)%Z; [done|].
    specialize (IH h (S i)).
    destruct (poll_loop w h n (S i)) as [[tr h'] x]. simpl in *.
    destruct x; auto.
  - destruct (poll w i) as [rc|]; [done|].
    match goal with |- context [poll_loop w ?h1 n (S i)] =>
      specialize (IH h1 (S i)); destruct (poll_loop w h1 n (S i)) as [[tr h'] x]
    end.
    simpl in *. destruct x; auto.
Qed.

Lemma dump_log_no_poll w suffix :
  backoff_after_live_poll (dump_log w ++ suffix) = backoff_after_live_poll suffix.
Proof.
  unfold dump_log. destruct (log_readlines w) as [e|lines]; [done|].
  simpl. rewrite <- app_assoc. induction lines as [|l lines IH]; [done|exact IH].
Qed.

Lemma dump_log_no_request w : requests_made (dump_log w) = 0.
Proof.
  unfold dump_log, requests_made. destruct (log_readlines w) as [e|lines]; [done|].
  simpl. induction lines as [|l lines IH]; [done|exact IH].
Qed.

(** Without a successful answer the loop is never left through [break]. *)
Lemma poll_loop_never_started w h n i :
  (forall j, j < n -> answers_ok w (i + j) = false) ->
  (poll_loop w h n i).2 <> Started.
Proof.
  revert h i. induction n as [|n IH]; intros h i Hall; simpl; [done|].
  pose proof (Hall 0 ltac:(lia)) as Hok. rewrite Nat.add_0_r in Hok.
  unfold answers_ok in Hok.
  assert (Hall' : forall j, j < n -> answers_ok w (S i + j) = false).
  { intros j Hj. replace (S i + j) with (i + S j) by lia. apply Hall. lia. }
  destruct (liveness w i) as [code|d].
  - rewrite Hok. specialize (IH h (S i) Hall').
    destruct (poll_loop w h n (S i)) as [[tr h'] x]. exact IH.
  - destruct (poll w i) as [rc|]; [done|].
    match goal with |- context [poll_loop w ?h1 n (S i)] =>
      specialize (IH h1 (S i) Hall'); destruct (poll_loop w h1 n (S i)) as [[tr h'] x]
    end.
    exact IH.
Qed.

Lemma no_success_no_handle w :
  (forall j, j < attempts -> answers_ok w j = false) ->
  raises (start_mock_server w).2.
Proof.
  intros Hall. unfold start_mock_server, start_mock_server_state.
  match goal with |- context [poll_loop w ?h0 attempts 0] =>
    pose proof (poll_loop_never_started w h0 attempts 0 Hall) as Hns;
    destruct (poll_loop w h0 attempts 0) as [[tr h'] x]
  end.
  simpl in Hns. destruct x; [done | |]; eexists; reflexivity.
Qed.

Lemma poll_loop_events w h n i : Forall loop_event (poll_loop w h n i).1.1.
Proof.
  revert h i. induction n as [|n IH]; intros h i; simpl; [constructor|].
  destruct (liveness w i) as [code|d].
  - destruct (code =? HTTP_OK)%Z; [by repeat constructor|].
    specialize (IH h (S i)).
    destruct (poll_loop w h n (S i)) as [[tr h'] x]. simpl in *.
    by repeat constructor.
  - destruct (poll w i) as [rc|]; [by repeat constructor|].
    match goal with |- context [poll_loop w ?h1 n (S i)] =>
      specialize (IH h1 (S i)); destruct (poll_loop w h1 n (S i)) as [[tr h'] x]
    end.
    simpl in *. by repeat constructor.
Qed.


(** [lstrip] takes whitespace off the front and stops at the first
    character that is none. *)
Lemma lstrip_spec (s : text) :
  exists pre, s = pre ++ lstrip s /\ forallb is_py_space pre = true /\
              forall c, head (lstrip s) = Some c -> is_py_space c = false.
Proof.
  induction s as [|c s (pre & Hs & Hpre & Hhead)]; simpl.
  - exists []. by split_and!.
  - destruct (is_py_space c) eqn:Hc.
    + exists (c :: pre). split_and!; [simpl; congruence | simpl; by rewrite Hc | done].
    + exists []. split_and!; [done | done |]. intros c' [= <-]. exact Hc.
Qed.

Lemma strip_stripped (l : text) : stripped l (strip l).
Proof.
  unfold stripped, strip.
  destruct (lstrip_spec l) as (pre & Hl & Hpre & Hhead).
  destruct (lstrip_spec (reverse (lstrip l))) as (q & Hm & Hq & Hlast).
  set (core := lstrip (reverse (lstrip l))) in *.
  assert (Hmid : lstrip l = reverse core ++ reverse q).
  { rewrite <- reverse_app, <- Hm. by rewrite reverse_involutive. }
  exists pre, (reverse q). split_and!.
  - by rewrite <- Hmid.
  - exact Hpre.
  - rewrite forallb_forall in Hq |- *. intros c Hc. apply Hq.
    apply list_elem_of_In. apply list_elem_of_In in Hc.
    rewrite elem_of_reverse in Hc. exact Hc.
  - intros c Hc. apply Hhead. rewrite Hmid.
    destruct (reverse core) as [|c' rest]; [discriminate|]. exact Hc.
  - intros c Hc. apply Hlast. by rewrite last_reverse in Hc.
Qed.

(** The log dump, line by line. *)
Lemma dump_log_shown w :
  match log_readlines w with
  | inr lines =>
    exists shown,
      dump_log w = EvPrint MsgRule :: map (fun s => EvPrint (MsgLogLine s)) shown
                     ++ [EvPrint MsgRule] /\
      Forall2 stripped lines shown
  | inl e => dump_log w = [EvPrint MsgRule; EvPrint (MsgException e)]
  end.
Proof.
  unfold dump_log. destruct (log_readlines w) as [e|lines]; [done|].
  exists (strip <$> lines). split.
  - by rewrite <- list_fmap_compose.
  - apply Forall2_fmap_r, Forall_Forall2_diag, Forall_forall.
    intros l _. apply strip_stripped.
Qed.

(** Requests of a trace that has none. *)
Lemma after_request_none i tr :
  Forall (fun e => is_request e = false) tr -> after_request i tr = None.
Proof.
  induction 1 as [|e tr He _ IH]; [done|].
  destruct e; simpl; try exact IH. discriminate.
Qed.

(** A loop with indices left starts with the liveness request. *)
Lemma poll_loop_head w h n i :
  exists rest, (poll_loop w h (S n) i).1.1 = liveness_request h :: rest.
Proof.
  simpl. destruct (liveness w i) as [code|d].
  - destruct (code =? HTTP_OK)%Z; [by eexists|].
    destruct (poll_loop w h n (S i)) as [[tr h'] x]. by eexists.
  - destruct (poll w i) as [rc|]; [by eexists|].
    match goal with |- context [poll_loop w ?h1 n (S i)] =>
      destruct (poll_loop w h1 n (S i)) as [[tr h'] x]
    end.
    by eexists.
Qed.

(** What follows request number [k] of the loop, by the outcome of
    attempt [i + k]; [suffix] is what the caller appends to the trace. *)
Lemma poll_loop_after w h n i k suffix post :
  Forall (fun e => is_request e = false) suffix ->
  after_request k ((poll_loop w h n i).1.1 ++ suffix) = Some post ->
  match liveness w (i + k) with
  | Response code =>
    if (code =? HTTP_OK)%Z
    then post = suffix /\ (poll_loop w h n i).2 = Started
    else exists rest,
        post = EvPrint (MsgAttempting code) :: rest /\
        if S k <? n then exists rest', rest = liveness_request h :: rest'
        else rest = suffix /\ (poll_loop w h n i).2 = Exhausted
  | Raises _ =>
    match poll w (i + k) with
    | None =>
      exists rest,
        post = EvPrint (MsgTimedOut (base_url h)) :: EvPoll None
                 :: EvSleep backoff :: rest /\
        if S k <? n then exists rest', rest = liveness_request h :: rest'
        else rest = suffix /\ (poll_loop w h n i).2 = Exhausted
    | Some rc =>
      post = EvPrint (MsgTimedOut (base_url h)) :: EvPoll (Some rc) :: suffix /\
      exists e, (poll_loop w h n i).2 = Raised e
    end
  end.
Proof.
  intros Hsuffix. revert h i k.
  induction n as [|n IH]; intros h i k Hafter.
  { simpl in Hafter. by rewrite after_request_none in Hafter. }
  assert (Hnext : forall h1,
            base_url h1 = base_url h ->
            if 1 <? S n
            then exists rest',
                (poll_loop w h1 n (S i)).1.1 ++ suffix = liveness_request h :: rest'
            else (poll_loop w h1 n (S i)).1.1 ++ suffix = suffix /\
                 (poll_loop w h1 n (S i)).2 = Exhausted).
  { intros h1 Hurl. destruct n as [|n']; [done|].
    destruct (poll_loop_head w h1 n' (S i)) as [rest ->].
    exists (rest ++ suffix). unfold liveness_request, ctx_url. by rewrite Hurl. }
  assert (Hshift : forall j, S i + j = i + S j) by (intros; lia).
  simpl in Hafter |- *.
  destruct k as [|k].
  - rewrite Nat.add_0_r.
    destruct (liveness w i) as [code|d].
    + destruct (code =? HTTP_OK)%Z.
      { simpl in Hafter. by injection Hafter as <-. }
      specialize (Hnext h eq_refl).
      destruct (poll_loop w h n (S i)) as [[tr h'] x]. simpl in *.
      injection Hafter as <-. eexists. split; [reflexivity|].
      exact Hnext.
    + destruct (poll w i) as [rc|].
      { simpl in Hafter. injection Hafter as <-. split; [done | by eexists]. }
      match goal with |- context [poll_loop w ?h1 n (S i)] =>
        specialize (Hnext h1 eq_refl);
        destruct (poll_loop w h1 n (S i)) as [[tr h'] x]
      end.
      simpl in *. injection Hafter as <-. eexists. split; [reflexivity|].
      exact Hnext.
  - rewrite <- Hshift.
    destruct (liveness w i) as [code|d].
    + destruct (code =? HTTP_OK)%Z.
      { simpl in Hafter. by rewrite after_request_none in Hafter. }
      specialize (IH h (S i) k).
      destruct (poll_loop w h n (S i)) as [[tr h'] x]. simpl in *.
      by apply IH.
    + destruct (poll w i) as [rc|].
      { simpl in Hafter. by rewrite after_request_none in Hafter. }
      match goal with |- context [poll_loop w ?h1 n (S i)] =>
        specialize (IH h1 (S i) k); destruct (poll_loop w h1 n (S i)) as [[tr h'] x]
      end.
      simpl in *. by apply IH.
Qed.

Lemma dump_log_no_requests w :
  Forall (fun e => is_request e = false) (dump_log w).
Proof.
  unfold dump_log. destruct (log_readlines w) as [e|lines]; [by repeat constructor|].
  constructor; [done|]. apply Forall_app. split; [|by repeat constructor].
  apply Forall_forall. intros e [l [-> _]]%list_elem_of_fmap. done.
Qed.

(** C1, as stated, fails: when the child is found exited the function
    raises from inside the loop; the child is not terminated and the log
    is not printed. *)
Lemma early_exit_skips_cleanup :
  exit_seen w_crash 0 = true /\
  (start_mock_server w_crash).1 =
    [EvPopen 8080;
     EvRequest GET "http://localhost:8080/ctx" None (Some 5%Z);
     EvPrint (MsgTimedOut "http://localhost:8080");
     EvPoll (Some 1%Z)] /\
  ~ failure_steps w_crash (start_mock_server w_crash).
Proof.
  split; [reflexivity|]. split; [vm_compute; reflexivity|].
  intros (Hterm & _ & _).
  assert (Htr : (start_mock_server w_crash).1 =
    [EvPopen 8080;
     EvRequest GET "http://localhost:8080/ctx" None (Some 5%Z);
     EvPrint (MsgTimedOut "http://localhost:8080");
     EvPoll (Some 1%Z)]) by (vm_compute; reflexivity).
  rewrite Htr in Hterm. simpl in Hterm.
  destruct Hterm as [?|[?|[?|[?|[]]]]]; discriminate.
Qed.

(** C1, amended: a run that uses up all ten attempts terminates the
    child, prints the log between two rules, each line without its
    leading and trailing whitespace (or the first rule and the reason
    why the log could not be read), and raises with the exit code that
    [terminate] found; a run that finds the child exited after a refused
    request raises at once, without terminating the child or printing
    the log. *)
Theorem startup_failure_paths w :
  ((forall j, j < attempts -> answers_ok w j = false /\ exit_seen w j = false) ->
   (exists pre printed,
      (start_mock_server w).1
      = pre ++ EvTerminate :: EvPrint MsgFailedToLaunch :: EvPrint MsgRule :: printed /\
      ~ In EvTerminate pre /\
      match log_readlines w with
      | inr lines =>
        exists shown,
          printed = map (fun s => EvPrint (MsgLogLine s)) shown ++ [EvPrint MsgRule] /\
          Forall2 stripped lines shown
      | inl e => printed = [EvPrint (MsgException e)]
      end) /\
   failure_steps w (start_mock_server w) /\
   (start_mock_server w).2
   = raise (ValueError ("Failed to start server!  Exit code "
                        +:+ pretty_returncode (terminate_poll w))) /\
   returncode (global_server w) = terminate_poll w) /\
  (forall k, k < attempts -> exit_seen w k = true ->
     (forall j, j < k -> answers_ok w j = false) ->
     (start_mock_server w).2 = raise (ValueError "Server failed to start.") /\
     ~ In EvTerminate (start_mock_server w).1 /\
     ~ In (EvPrint MsgRule) (start_mock_server w).1).
Proof.
  split.
  - intros Hall.
    unfold failure_steps, global_server, start_mock_server, start_mock_server_state.
    match goal with |- context [poll_loop w ?h0 attempts 0] =>
      pose proof (poll_loop_exhausted w h0 attempts 0 eq_refl Hall) as (Hx & Hrc & Hterm);
      destruct (poll_loop w h0 attempts 0) as [[tr h'] x]
    end.
    simpl in Hx, Hrc, Hterm. subst x. unfold terminate. rewrite Hrc. simpl.
    split_and!.
    + pose proof (dump_log_shown w) as Hdump.
      destruct (log_readlines w) as [e|lines].
      * exists (EvPopen (free_port w) :: tr), [EvPrint (MsgException e)].
        rewrite Hdump. split_and!; [done | | done].
        intros [?|?]; [discriminate | auto].
      * destruct Hdump as (shown & -> & Hshown).
        exists (EvPopen (free_port w) :: tr),
          (map (fun s => EvPrint (MsgLogLine s)) shown ++ [EvPrint MsgRule]).
        split_and!; [done | | by exists shown].
        intros [?|?]; [discriminate | auto].
    + right. apply in_or_app. right. by left.
    + exists (EvPopen (free_port w) :: tr ++ [EvTerminate; EvPrint MsgFailedToLaunch]).
      simpl. by rewrite <- app_assoc.
    + eexists; reflexivity.
    + reflexivity.
    + reflexivity.
  - intros k Hk Hexit Hbefore. unfold start_mock_server, start_mock_server_state.
    match goal with |- context [poll_loop w ?h0 attempts 0] =>
      pose proof (poll_loop_exit_seen w h0 attempts 0 k Hk Hexit Hbefore) as [Hx Hterm];
      pose proof (poll_loop_events w h0 attempts 0) as Hev;
      destruct (poll_loop w h0 attempts 0) as [[tr h'] x]
    end.
    simpl in Hx, Hterm, Hev. subst x. simpl. split_and!; [done | |].
    + intros [?|?]; [discriminate | auto].
    + intros [?|Hin]; [discriminate|].
      rewrite List.Forall_forall in Hev. by apply Hev in Hin.
Qed.

Lemma startup_failure_paths_witness :
  (start_mock_server w_gone).2
  = raise (ValueError "Failed to start server!  Exit code 1") /\
  failure_steps w_silent (start_mock_server w_silent) /\
  (start_mock_server w_crash).2 = raise (ValueError "Server failed to start.").
Proof.
  split_and!.
  - destruct (proj1 (startup_failure_paths w_gone)) as (_ & _ & Hmsg & _).
    + intros j _. split; reflexivity.
    + exact Hmsg.
  - apply (proj1 (startup_failure_paths w_silent)).
    intros j _. split; reflexivity.
  - apply (proj2 (startup_failure_paths w_crash) 0%nat).
    + unfold attempts. lia.
    + reflexivity.
    + intros j Hj. lia.
Defined.

(** C2, as stated, fails: an attempt that is answered with a status other
    than 200 is followed by the next attempt at once, although the child
    is alive and the server answers 200 within the budget. *)
Lemma no_backoff_after_response :
  (forall i, poll w_busy i = None) /\
  answers_ok w_busy 1 = true /\
  (start_mock_server w_busy).1 =
    [EvPopen 8080;
     EvRequest GET "http://localhost:8080/ctx" None (Some 5%Z);
     EvPrint (MsgAttempting 503);
     EvRequest GET "http://localhost:8080/ctx" None (Some 5%Z);
     EvPrint (MsgListening 8080)] /\
  backoff_between_attempts (start_mock_server w_busy).1 = false.
Proof. split_and!; [done | reflexivity | vm_compute; reflexivity | vm_compute; reflexivity]. Qed.

(** C2, amended: the loop makes at most ten requests, each to
    [<base_url>/ctx] with a timeout of 5 seconds.  What follows a request
    is fixed by the outcome of that attempt: after an answer 200 only the
    announcement of the port; after any other answer the message and then
    at once the next request (or, after the tenth, [terminate]), with no
    look at the child and no pause; after a request that raised, the
    message and the poll, and then, if the child runs, a sleep of 1
    second before the next request (or [terminate]), and nothing more if
    it has exited.  No sleep occurs anywhere else.  When some attempt
    within the budget is answered with 200 and no earlier attempt found
    the child exited, the caller gets a handle whose base URL and port
    are those of the allocated port. *)
Theorem liveness_poll_bounded w :
  requests_made (start_mock_server w).1 <= attempts /\
  Forall (fun e => is_request e = true ->
            e = EvRequest GET (format_base_url (free_port w) +:+ "/ctx") None
                          (Some attempt_timeout))
         (start_mock_server w).1 /\
  backoff_after_live_poll (start_mock_server w).1 = true /\
  (forall i post,
     after_request i (start_mock_server w).1 = Some post ->
     let url := format_base_url (free_port w) in
     let next :=
       if S i <? attempts
       then EvRequest GET (url +:+ "/ctx") None (Some attempt_timeout)
       else EvTerminate in
     match liveness w i with
     | Response code =>
       if (code =? HTTP_OK)%Z then post = [EvPrint (MsgListening (free_port w))]
       else exists rest, post = EvPrint (MsgAttempting code) :: next :: rest
     | Raises _ =>
       match poll w i with
       | None =>
         exists rest,
           post = EvPrint (MsgTimedOut url) :: EvPoll None :: EvSleep 1%Z
                    :: next :: rest
       | Some rc => post = [EvPrint (MsgTimedOut url); EvPoll (Some rc)]
       end
     end) /\
  (forall k, k < attempts -> answers_ok w k = true ->
     (forall j, j < k -> exit_seen w j = false) ->
     exists h, (start_mock_server w).2 = ok h /\
               _port h = free_port w /\
               base_url h = format_base_url (free_port w)).
Proof.
  unfold start_mock_server, start_mock_server_state.
  match goal with |- context [poll_loop w ?h0 attempts 0] => set (h0' := h0) end.
  pose proof (poll_loop_requests w h0' attempts 0) as [Hn Hreq].
  pose proof (poll_loop_backoff w h0' attempts 0) as Hback.
  pose proof (poll_loop_handle w h0' attempts 0) as [Hport Hurl].
  pose proof (poll_loop_started w h0' attempts 0) as Hstart.
  pose proof (fun k suffix post => poll_loop_after w h0' attempts 0 k suffix post)
    as Hafter.
  destruct (poll_loop w h0' attempts 0) as [[tr h'] x]. simpl in *.
  assert (Hreq' : forall suffix,
            Forall (fun e => is_request e = true ->
              e = EvRequest GET (format_base_url (free_port w) +:+ "/ctx") None
                            (Some attempt_timeout)) suffix ->
            Forall (fun e => is_request e = true ->
              e = EvRequest GET (format_base_url (free_port w) +:+ "/ctx") None
                            (Some attempt_timeout))
              (EvPopen (free_port w) :: tr ++ suffix)).
  { intros suffix Hs. constructor; [discriminate|].
    apply Forall_app. split; [exact Hreq | exact Hs]. }
  assert (Hcount : forall suffix, requests_made suffix = 0 ->
            requests_made (EvPopen (free_port w) :: tr ++ suffix) <= attempts).
  { intros suffix Hs. unfold requests_made in *. simpl.
    rewrite List.filter_app, length_app, Hs. lia. }
  assert (Hfollow : forall suffix,
            Forall (fun e => is_request e = false) suffix ->
            (x = Started -> suffix = [EvPrint (MsgListening (free_port w))]) ->
            (x = Exhausted -> exists rest, suffix = EvTerminate :: rest) ->
            (forall e, x = Raised e -> suffix = []) ->
            forall i post, after_request i (tr ++ suffix) = Some post ->
            match liveness w i with
            | Response code =>
              if (code =? HTTP_OK)%Z
              then post = [EvPrint (MsgListening (free_port w))]
              else exists rest,
                  post = EvPrint (MsgAttempting code)
                    :: (if S i <? attempts
                        then EvRequest GET (format_base_url (free_port w) +:+ "/ctx")
                               None (Some attempt_timeout)
                        else EvTerminate) :: rest
            | Raises _ =>
              match poll w i with
              | None =>
                exists rest,
                  post = EvPrint (MsgTimedOut (format_base_url (free_port w)))
                    :: EvPoll None :: EvSleep 1%Z
                    :: (if S i <? attempts
                        then EvRequest GET (format_base_url (free_port w) +:+ "/ctx")
                               None (Some attempt_timeout)
                        else EvTerminate) :: rest
              | Some rc =>
                post = [EvPrint (MsgTimedOut (format_base_url (free_port w)));
                        EvPoll (Some rc)]
              end
            end).
  { intros suffix Hs Hst Hex Hra i post Hpost.
    specialize (Hafter i suffix post Hs Hpost). simpl in Hafter.
    destruct (liveness w i) as [code|d].
    - destruct (code =? HTTP_OK)%Z.
      + destruct Hafter as [-> Hx]. by apply Hst.
      + destruct Hafter as (rest & -> & Hrest).
        destruct (S i <? attempts).
        * destruct Hrest as [rest' ->]. by eexists.
        * destruct Hrest as [-> Hx]. destruct (Hex Hx) as [rest' ->]. by eexists.
    - destruct (poll w i) as [rc|].
      + destruct Hafter as [-> [e Hx]]. by rewrite (Hra e Hx).
      + destruct Hafter as (rest & -> & Hrest).
        destruct (S i <? attempts).
        * destruct Hrest as [rest' ->]. by eexists.
        * destruct Hrest as [-> Hx]. destruct (Hex Hx) as [rest' ->]. by eexists. }
  destruct x as [| |e]; simpl.
  - split_and!.
    + by apply Hcount.
    + apply Hreq'. repeat constructor. discriminate.
    + by rewrite Hback.
    + rewrite Hport. apply Hfollow; try done. by repeat constructor.
    + intros. eauto.
  - split_and!.
    + apply Hcount. unfold requests_made. simpl.
      fold (requests_made (dump_log w)). apply dump_log_no_request.
    + apply Hreq'. repeat constructor; try discriminate.
      eapply Forall_impl; [apply dump_log_no_requests|].
      simpl. intros e He1 He2. congruence.
    + rewrite Hback. simpl.
      rewrite <- (app_nil_r (dump_log w)). by rewrite dump_log_no_poll.
    + apply Hfollow; try done; [|by eexists].
      repeat constructor. apply dump_log_no_requests.
    + intros k Hk Hok Hbefore. specialize (Hstart k Hk Hok Hbefore). discriminate.
  - split_and!.
    + specialize (Hcount [] eq_refl). by rewrite app_nil_r in Hcount.
    + specialize (Hreq' [] (List.Forall_nil _)). by rewrite app_nil_r in Hreq'.
    + exact Hback.
    + intros i post Hpost. rewrite <- (app_nil_r tr) in Hpost.
      revert i post Hpost. apply Hfollow; first [done | constructor].
    + intros k Hk Hok Hbefore. specialize (Hstart k Hk Hok Hbefore). discriminate.
Qed.

Lemma liveness_poll_bounded_witness :
  exists h, (start_mock_server w_busy).2 = ok h /\
            _port h = 8080%Z /\ base_url h = "http://localhost:8080".
Proof.
  destruct (liveness_poll_bounded w_busy) as (_ & _ & _ & _ & Hok).
  apply (Hok 1).
  - unfold attempts. lia.
  - reflexivity.
  - intros j Hj. destruct j; [reflexivity | lia].
Defined.




(** C7: each of [get_ctx], [set_ctx] and [reset_ctx] sends exactly one
    request (GET, PUT with the payload, DELETE) to [<base_url>/ctx],
    whatever the network does; an exception of that request is the
    outcome of the call, and otherwise the outcome is the JSON decoding
    of the response body. *)
Theorem ctx_client_single_round_trip h (net : http) (payload : string) :
  let url := base_url h +:+ "/ctx" in
  ((get_ctx h net).1 = [EvRequest GET url None None] /\
   (set_ctx h payload net).1 = [EvRequest PUT url (Some payload) None] /\
   (reset_ctx h net).1 = [EvRequest DELETE url None None]) /\
  (forall e,
     (send net GET url None = raise e -> (get_ctx h net).2 = raise e) /\
     (send net PUT url (Some payload) = raise e ->
        (set_ctx h payload net).2 = raise e) /\
     (send net DELETE url None = raise e -> (reset_ctx h net).2 = raise e)) /\
  (forall body,
     (send net GET url None = ok body ->
        (get_ctx h net).2 = json_decode net body) /\
     (send net PUT url (Some payload) = ok body ->
        (set_ctx h payload net).2 = json_decode net body) /\
     (send net DELETE url None = ok body ->
        (reset_ctx h net).2 = json_decode net body)).
Proof.
  intros url. unfold get_ctx, set_ctx, reset_ctx, and_then, request, ctx_url.
  fold url. simpl. split_and!; try reflexivity.
  - intros e. split_and!; intros ->; reflexivity.
  - intros body. split_and!; intros ->; reflexivity.
Qed.

Lemma ctx_client_single_round_trip_witness :
  (get_ctx Fixtures.server0 net_down).2 = raise (RequestException "connection refused") /\
  (set_ctx Fixtures.server0 "{}" net_echo).2 = ok "{}".
Proof.
  pose proof (ctx_client_single_round_trip Fixtures.server0 net_down "{}")
    as (_ & Hraise & _).
  pose proof (ctx_client_single_round_trip Fixtures.server0 net_echo "{}")
    as (_ & _ & Hok).
  split.
  - apply (Hraise (RequestException "connection refused")). reflexivity.
  - apply (Hok "{}"). reflexivity.
Defined.

End MockServerSpec.

(** ** Properties of the fixtures *)

Module FixturesSpec.
Import Py Fixtures.

Implicit Types (L : lib) (st : state) (k v : string) (d : list (string * string)).

(** *** Environment variables *)

Lemma keeps_var_bind {A B} k (c : io A) (f : A -> io B) :
  keeps_var k c -> (forall a, keeps_var k (f a)) -> keeps_var k (c ≫= f).
Proof.
  intros Hc Hf st. unfold mbind, stateful_bind. specialize (Hc st).
  destruct (c st) as [st' [e|a]]; simpl in *; [done|].
  rewrite <- Hc. apply Hf.
Qed.

Lemma keeps_var_ret {A} k (a : A) : keeps_var k (mret a : io A).
Proof. intros st. reflexivity. Qed.

Lemma keeps_var_try_finally {A} k (body : io A) (cleanup : io unit) :
  keeps_var k body -> keeps_var k cleanup -> keeps_var k (try_finally body cleanup).
Proof.
  intros Hb Hc st. unfold try_finally. specialize (Hb st).
  destruct (body st) as [st1 r]. specialize (Hc st1).
  destruct (cleanup st1) as [st2 [e|[]]]; simpl in *; congruence.
Qed.

Lemma keeps_var_setitem k k' v : k <> k' -> keeps_var k (environ_setitem k' v).
Proof.
  intros Hne st. unfold environ_setitem.
  destruct (setitem_error k'); simpl; [done | by rewrite lookup_insert_ne].
Qed.

Lemma keeps_var_delitem k k' : k <> k' -> keeps_var k (environ_delitem k').
Proof.
  intros Hne st. unfold environ_delitem.
  destruct (delitem_error k'); [done|].
  destruct (os_environ st !! k'); simpl; [by rewrite lookup_delete_ne | done].
Qed.

Lemma keeps_var_reset_ctx k up : keeps_var k (server_reset_ctx up).
Proof. intros st. unfold server_reset_ctx. by destruct up. Qed.

Lemma keeps_var_set_all k d : k ∉ d.*1 -> keeps_var k (environ_set_all d).
Proof.
  induction d as [|[k' v] d IH]; intros Hk; simpl.
  - apply keeps_var_ret.
  - apply not_elem_of_cons in Hk as [Hne Hk].
    apply keeps_var_bind; [by apply keeps_var_setitem | intros _; by apply IH].
Qed.

Lemma keeps_var_del_all k d : k ∉ d.*1 -> keeps_var k (environ_del_all d).
Proof.
  induction d as [|[k' v] d IH]; intros Hk; simpl.
  - apply keeps_var_ret.
  - apply not_elem_of_cons in Hk as [Hne Hk].
    apply keeps_var_bind; [by apply keeps_var_delitem | intros _; by apply IH].
Qed.

Lemma keeps_var_with_fixture {R} k (setup : io R) teardown (body : R -> io unit) st :
  keeps_var k setup -> keeps_var k teardown -> (forall r, keeps_var k (body r)) ->
  os_environ (with_fixture setup teardown body st).1.1 !! k = os_environ st !! k.
Proof.
  intros Hs Ht Hb. unfold with_fixture. specialize (Hs st).
  destruct (setup st) as [st1 [e|r]]; simpl in *; [done|].
  specialize (Hb r st1). destruct (body r st1) as [st2 outcome].
  specialize (Ht st2). destruct (teardown st2) as [st3 down].
  simpl in *. congruence.
Qed.

Lemma live_mock_server_setup_keeps L server name up k :
  k ∉ live_mock_server_keys -> keeps_var k (live_mock_server_setup L server name up).
Proof.
  unfold live_mock_server_keys. intros Hk.
  repeat (apply not_elem_of_cons in Hk as [? Hk]).
  unfold live_mock_server_setup.
  repeat (apply keeps_var_bind; [|intros _]);
    auto using keeps_var_setitem, keeps_var_reset_ctx, keeps_var_ret.
Qed.

Lemma live_mock_server_teardown_keeps k :
  k ∉ live_mock_server_keys -> keeps_var k live_mock_server_teardown.
Proof.
  unfold live_mock_server_keys. intros Hk.
  repeat (apply not_elem_of_cons in Hk as [? Hk]).
  unfold live_mock_server_teardown.
  repeat (apply keeps_var_bind; [|intros _]); auto using keeps_var_delitem.
Qed.

(** C3, as stated, fails for both fixtures: a variable that the fixture
    injects and that was already set (here a developer's own
    [WANDB_API_KEY]) is overwritten by the set-up and deleted by the
    teardown, although the test body does nothing. *)
Lemma preexisting_variable_lost :
  os_environ st_dev !! "WANDB_API_KEY" = Some "secret" /\
  os_environ (run_live_mock_server lib0 server0 "test_x" true
                (fun _ => mret ()) st_dev).1.1 !! "WANDB_API_KEY" = None /\
  os_environ (run_wandb_init_run lib0
                {| k8s := None; sagemaker := false;
                   env := [("WANDB_API_KEY", "XXX")] |}
                (mret ()) st_dev).1 !! "WANDB_API_KEY" = None /\
  ~ restores_environ (fun st =>
      (run_live_mock_server lib0 server0 "test_x" true (fun _ => mret ()) st).1.1).
Proof.
  assert (H1 : os_environ st_dev !! "WANDB_API_KEY" = Some "secret")
    by (vm_compute; reflexivity).
  assert (H2 : os_environ (run_live_mock_server lib0 server0 "test_x" true
                (fun _ => mret ()) st_dev).1.1 !! "WANDB_API_KEY" = None)
    by (vm_compute; reflexivity).
  split_and!; [exact H1 | exact H2 | vm_compute; reflexivity |].
  intros Hr. specialize (Hr st_dev _ _ H1). simpl in Hr. congruence.
Qed.

(** C3, amended: a variable that is not among those the fixture injects
    ([WANDB_USERNAME], [WANDB_BASE_URL], [WANDB_ERROR_REPORTING],
    [WANDB_API_KEY] for [live_mock_server]; the keys of [args["env"]]
    for [wandb_init_run]) and that the test body and the library calls
    leave alone has after the run what it had before it, whether the
    set-up, the body or the teardown raised or not. *)
Theorem other_variables_restored L k :
  (forall server name up body st,
     k ∉ live_mock_server_keys ->
     (forall h, keeps_var k (body h)) ->
     os_environ (run_live_mock_server L server name up body st).1.1 !! k
     = os_environ st !! k) /\
  (forall args body st,
     k ∉ (mocks_from_args L args).*1 ->
     keeps_var k (wandb_init L) -> keeps_var k (wandb_join L) ->
     keeps_var k (unset_globals L) -> keeps_var k body ->
     os_environ (run_wandb_init_run L args body st).1 !! k = os_environ st !! k).
Proof.
  split.
  - intros server name up body st Hk Hbody. unfold run_live_mock_server.
    apply keeps_var_with_fixture;
      auto using live_mock_server_setup_keeps, live_mock_server_teardown_keeps.
  - intros args body st Hk Hinit Hjoin Hunset Hbody.
    unfold run_wandb_init_run. revert st. apply keeps_var_try_finally.
    + intros st.
      assert (Hset : keeps_var k (environ_set_all (mocks_from_args L args) ;; wandb_init L)).
      { apply keeps_var_bind; [by apply keeps_var_set_all | done]. }
      specialize (Hset st).
      destruct ((environ_set_all (mocks_from_args L args) ;; wandb_init L) st)
        as [st1 [e|[]]]; simpl in *; [done|].
      specialize (Hbody st1). destruct (body st1) as [st2 outcome].
      specialize (Hjoin st2). destruct (wandb_join L st2) as [st3 joined].
      simpl in *. congruence.
    + apply keeps_var_bind; [done | intros _; by apply keeps_var_del_all].
Qed.

Lemma other_variables_restored_witness :
  os_environ (run_live_mock_server lib0 server0 "test_x" true
                (fun _ => mret ()) st_dev).1.1 !! "HOME" = Some "/home/dev" /\
  os_environ (run_wandb_init_run lib0
                {| k8s := Some true; sagemaker := true;
                   env := [("WANDB_API_KEY", "XXX")] |}
                (mret ()) st_dev).1 !! "HOME" = Some "/home/dev".
Proof.
  destruct (other_variables_restored lib0 "HOME") as [Hlive Hinit].
  split.
  - rewrite Hlive; [reflexivity | |].
    + unfold live_mock_server_keys. intros H.
      repeat (apply elem_of_cons in H as [H|H]; [discriminate|]).
      by apply elem_of_nil in H.
    + intros h st. reflexivity.
  - rewrite Hinit; [reflexivity | | | | |]; try (intros st; reflexivity).
    intros H. vm_compute in H.
    repeat (apply elem_of_cons in H as [H|H]; [discriminate|]).
    by apply elem_of_nil in H.
Defined.

(** *** The server Context at the start of a test *)

Lemma live_mock_server_setup_resets L server name up st st1 h :
  live_mock_server_setup L server name up st = (st1, ok h) ->
  server_ctx st1 = ∅.
Proof.
  unfold live_mock_server_setup, mbind, stateful_bind, environ_setitem, server_reset_ctx.
  simpl. destruct up; simpl; [|discriminate].
  intros [= <- _]. reflexivity.
Qed.

Lemma run_test_starts_reset L server up t st :
  uses_live_mock_server t = true ->
  starts_reset (run_test L server up t st).2.
Proof.
  intros Huses. unfold run_test, run_live_mock_server, with_fixture.
  rewrite Huses.
  destruct (live_mock_server_setup L server (node_name t) up st)
    as [st1 [e|h]] eqn:Hsetup.
  - simpl. intros ctx [=].
  - destruct (test_body t st1) as [st2 outcome].
    destruct (live_mock_server_teardown st2) as [st3 down]. simpl.
    intros ctx [= <-]. by eapply live_mock_server_setup_resets.
Qed.

(** C4, as stated, fails: [live_mock_server] is not an autouse fixture,
    and a test that does not request it starts with whatever the test
    before it wrote. *)
Lemma context_leaks_without_fixture :
  (run_session lib0 server0 [(test_writer, true); (test_plain, true)] st_dev).*2
  = [Some ∅; Some {[ "a" := "1" ]}] /\
  ~ Forall (fun o => starts_reset o.2)
      (run_session lib0 server0 [(test_writer, true); (test_plain, true)] st_dev).
Proof.
  assert (Hrun :
    (run_session lib0 server0 [(test_writer, true); (test_plain, true)] st_dev).*2
    = [Some ∅; Some {[ "a" := "1" ]}]).
  { vm_compute. reflexivity. }
  split; [exact Hrun|]. intros Hall.
  apply (Forall_fmap snd starts_reset) in Hall. rewrite Hrun in Hall.
  apply Forall_cons in Hall as [_ Hall]. apply Forall_cons in Hall as [Hplain _].
  specialize (Hplain _ eq_refl).
  apply (f_equal (fun m : gmap string string => m !! "a")) in Hplain.
  vm_compute in Hplain. discriminate.
Qed.

(** C4, amended: in every session, every test that requests
    [live_mock_server] and whose body starts finds the empty Context,
    whatever the earlier tests wrote. *)
Theorem context_reset_for_live_tests L server tests st :
  Forall (fun o => uses_live_mock_server o.1 = true -> starts_reset o.2)
         (run_session L server tests st).
Proof.
  revert st. induction tests as [|[t up] tests IH]; intros st; simpl.
  - constructor.
  - pose proof (run_test_starts_reset L server up t st) as Hstart.
    destruct (run_test L server up t st) as [st' seen]. simpl in Hstart.
    constructor; [exact Hstart | apply IH].
Qed.

(** *** Sandboxed path expansion *)

Lemma string_app_cons (c : ascii) (a b : string) :
  String c a +:+ b = String c (a +:+ b).
Proof. reflexivity. Qed.

Lemma string_app_assoc (a b c : string) : (a +:+ b) +:+ c = a +:+ (b +:+ c).
Proof.
  induction a as [|x a IH]; [reflexivity|].
  rewrite !string_app_cons. by rewrite IH.
Qed.

Lemma prefix_app (a b : string) : String.prefix a (a +:+ b) = true.
Proof.
  induction a as [|c a IH]; [by destruct b|].
  rewrite string_app_cons. simpl.
  destruct (Ascii.ascii_dec c c); [exact IH | done].
Qed.

Lemma path_of_app (d1 d2 : list string) :
  path_of (d1 ++ d2) = path_of d1 +:+ path_of d2.
Proof.
  induction d1 as [|c d1 IH]; [reflexivity|].
  simpl. rewrite IH. by rewrite !string_app_assoc.
Qed.

Lemma realpath_inside (root rest : list string) (name : string) :
  is_inside root (realpath (root ++ rest) name) = true.
Proof.
  unfold is_inside, realpath.
  rewrite <- app_assoc, path_of_app.
  destruct (rest ++ [name]) as [|c tl] eqn:Hne.
  { by destruct rest. }
  simpl. rewrite <- (string_app_assoc (path_of root) "/").
  apply prefix_app.
Qed.

(** C6, as stated, fails: the closure resolves [netrc] against the
    working directory of the moment of the call.  Once [local_settings]
    has entered its own isolated file system, or [test_dir] has changed
    the directory, a path with the marker expands to a place outside the
    sandbox of [local_netrc]. *)
Lemma expand_follows_working_directory :
  contains "netrc" "~/.netrc" = true /\
  (let st := ((local_netrc_setup ["tmp"; "tmpA"] ;;
               local_settings_setup ["tmp"; "tmpB"]) st_dev).1 in
   os_path_expanduser lib0 st "~/.netrc" = "/tmp/tmpB/netrc" /\
   is_inside ["tmp"; "tmpA"] (os_path_expanduser lib0 st "~/.netrc") = false) /\
  (let st := ((local_netrc_setup ["tmp"; "tmpA"] ;;
               test_dir_setup ["repo"] "test_x") st_dev).1 in
   os_path_expanduser lib0 st "~/.netrc" = "/repo/tests/logs/test_x/netrc" /\
   is_inside ["tmp"; "tmpA"] (os_path_expanduser lib0 st "~/.netrc") = false).
Proof. cbv zeta. split_and!; vm_compute; reflexivity. Qed.

(** C6, amended: while the patch of [local_netrc] is installed, a path
    that contains [netrc] expands to the real path of [netrc] under the
    working directory current at the call, which lies inside the sandbox
    root whenever that directory is the sandbox root or lies below it; a
    path without the marker expands as [origexpand] expands it. *)
Theorem expand_sandboxed L (tmp : list string) st0 st (path : string) :
  expanduser st = expanduser (local_netrc_setup tmp st0).1 ->
  (contains "netrc" path = true ->
     os_path_expanduser L st path = realpath (cwd st) "netrc" /\
     is_inside (cwd st) (os_path_expanduser L st path) = true /\
     (forall rest, cwd st = tmp ++ rest ->
        is_inside tmp (os_path_expanduser L st path) = true)) /\
  (contains "netrc" path = false ->
     os_path_expanduser L st path
     = call_expanduser L (expanduser st0) (cwd st) path).
Proof.
  intros Hpatch. unfold os_path_expanduser. rewrite Hpatch. simpl.
  split; intros ->.
  - split_and!; [done | |].
    + rewrite <- (app_nil_r (cwd st)) at 2. apply realpath_inside.
    + intros rest ->. apply realpath_inside.
  - reflexivity.
Qed.

Lemma expand_sandboxed_witness :
  let st := (local_netrc_setup ["tmp"; "tmpA"] st_dev).1 in
  is_inside ["tmp"; "tmpA"] (os_path_expanduser lib0 st "~/.netrc") = true /\
  os_path_expanduser lib0 st "~/.config" = "/home/dev~/.config".
Proof.
  intros st.
  destruct (expand_sandboxed lib0 ["tmp"; "tmpA"] st_dev st "~/.netrc" eq_refl)
    as [Hin _].
  destruct (expand_sandboxed lib0 ["tmp"; "tmpA"] st_dev st "~/.config" eq_refl)
    as [_ Hout].
  split.
  - destruct (Hin eq_refl) as (_ & _ & Hroot). apply (Hroot []). reflexivity.
  - rewrite Hout; reflexivity.
Defined.

End FixturesSpec.

(** ** Properties of the KFP shim *)

Module KfpPatchSpec.
Import Py KfpPatch KfpShim.

Implicit Types (st : interp) (m a b name : string) (v : pyobj)
               (entries : list (string * string)).

(** *** patch and unpatch *)

Lemma bind_ok {S A B} (c : stateful S A) (k : A -> stateful S B) s s' x :
  c s = (s', ok x) -> (c ≫= k) s = k x s'.
Proof. intros H. unfold mbind, stateful_bind. by rewrite H. Qed.

Lemma orig_ne a : orig_ a <> a.
Proof.
  intros H. apply (f_equal String.length) in H.
  change (S (S (S (S (S (String.length a))))) = String.length a) in H. lia.
Qed.

Lemma attr_of_setattr_eq st m a v : attr_of (setattr m a v st).1 m a = Some v.
Proof. unfold attr_of. simpl. rewrite lookup_insert_eq. simpl. by rewrite lookup_insert_eq. Qed.

Lemma attr_of_setattr_ne st m a v b :
  b <> a -> attr_of (setattr m a v st).1 m b = attr_of st m b.
Proof.
  intros Hne. unfold attr_of. simpl. rewrite lookup_insert_eq. simpl.
  rewrite lookup_insert_ne by done.
  destruct (modules st !! m); simpl; [done | by rewrite lookup_empty].
Qed.

Lemma attr_of_setattr_is_Some st m a v b :
  is_Some (attr_of st m b) -> is_Some (attr_of (setattr m a v st).1 m b).
Proof.
  intros Hb. destruct (decide (b = a)) as [->|Hne].
  - rewrite attr_of_setattr_eq. eauto.
  - by rewrite attr_of_setattr_ne.
Qed.

(** The loop of [unpatch] on a sound registry entry: it does not raise,
    every listed name whose [orig_] name is not listed too gets the value
    saved under its [orig_] name, the attributes that are not listed and
    the registry stay as they are, and [module] is still the module the
    loop started with. *)
Lemma restore_all_spec m entries st :
  Forall (fun e => e.1 = m) entries ->
  (forall a, a ∈ entries.*2 -> is_Some (attr_of st m (orig_ a))) ->
  exists st',
    restore_all entries m st = (st', ok m) /\
    patched st' = patched st /\
    (forall a, a ∈ entries.*2 -> orig_ a ∉ entries.*2 ->
       attr_of st' m a = attr_of st m (orig_ a)) /\
    (forall a, a ∉ entries.*2 -> attr_of st' m a = attr_of st m a).
Proof.
  revert st. induction entries as [|[m' a] rest IH]; intros st Hmod Hsaved.
  { exists st. split_and!; [done | done | | done].
    intros a Ha. by apply elem_of_nil in Ha. }
  apply Forall_cons in Hmod as [Hm' Hmod]. simpl in Hm'. subst m'.
  destruct (Hsaved a ltac:(left)) as [v Hv].
  set (st1 := (setattr m a v st).1).
  destruct (IH st1 Hmod) as (st' & Hrun & Hpat & Hin & Hout).
  { intros b Hb. apply attr_of_setattr_is_Some. apply Hsaved. by right. }
  exists st'. split_and!.
  - simpl. unfold mbind at 1, stateful_bind, getattr. rewrite Hv.
    unfold mbind, stateful_bind. simpl. exact Hrun.
  - by rewrite Hpat.
  - intros c Hc Hfree. simpl in Hfree. apply not_elem_of_cons in Hfree as [Hne Hfree].
    destruct (decide (c ∈ rest.*2)) as [Hrest|Hrest].
    + rewrite (Hin c Hrest Hfree). by apply attr_of_setattr_ne.
    + simpl in Hc. apply elem_of_cons in Hc as [->|Hc]; [|done].
      rewrite (Hout a Hrest). unfold st1. by rewrite attr_of_setattr_eq.
  - intros c Hc. simpl in Hc. apply not_elem_of_cons in Hc as [Hne Hc].
    rewrite (Hout c Hc). by apply attr_of_setattr_ne.
Qed.

(** What a successful [patch] leaves behind. *)
Lemma patch_run st (func : pyobj) m (v0 : pyobj) :
  attr_of st m (__name__ func) = Some v0 ->
  exists st1,
    patch func m st = (st1, ok ()) /\
    patched st1 !! m
    = Some (default [] (patched st !! m) ++ [(m, __name__ func)]) /\
    attr_of st1 m (__name__ func) = Some func /\
    attr_of st1 m (orig_ (__name__ func)) = Some v0 /\
    (forall b, b <> __name__ func -> b <> orig_ (__name__ func) ->
       attr_of st1 m b = attr_of st m b) /\
    (forall b, is_Some (attr_of st m b) -> is_Some (attr_of st1 m b)).
Proof.
  intros Hattr.
  set (name := __name__ func) in *.
  set (entries0 := default [] (patched st !! m)).
  set (sta := (patched_setdefault m st).1).
  assert (Hsta_pat : patched sta !! m = Some entries0).
  { unfold sta, patched_setdefault, entries0.
    destruct (patched st !! m) eqn:E; simpl; [done | by rewrite lookup_insert_eq]. }
  assert (Hsta_run : patched_setdefault m st = (sta, ok ())).
  { unfold sta, patched_setdefault. by destruct (patched st !! m). }
  assert (Hsta_attr : forall b, attr_of sta m b = attr_of st m b).
  { intros b. unfold attr_of, sta, patched_setdefault. by destruct (patched st !! m). }
  set (stb := (setattr m (orig_ name) v0 sta).1).
  set (stc := (setattr m name func stb).1).
  set (st1 := {| modules := modules stc;
                 patched := <[m := entries0 ++ [(m, name)]]> (patched stc) |}).
  assert (Hst1_attr : forall b, attr_of st1 m b = attr_of stc m b) by done.
  exists st1. split_and!.
  - unfold patch. rewrite (bind_ok _ _ _ _ _ Hsta_run).
    unfold mbind at 1, stateful_bind, getattr. fold name.
    rewrite Hsta_attr, Hattr.
    unfold mbind at 1, stateful_bind. simpl.
    unfold mbind at 1, stateful_bind. simpl.
    unfold mbind, stateful_bind, patched_getitem. simpl.
    rewrite Hsta_pat. reflexivity.
  - simpl. by rewrite lookup_insert_eq.
  - rewrite Hst1_attr. apply attr_of_setattr_eq.
  - rewrite Hst1_attr. unfold stc.
    rewrite attr_of_setattr_ne by apply orig_ne. apply attr_of_setattr_eq.
  - intros b Hb1 Hb2. rewrite Hst1_attr. unfold stc, stb.
    rewrite !attr_of_setattr_ne by done. apply Hsta_attr.
  - intros b Hb. rewrite Hst1_attr. unfold stc, stb.
    do 2 apply attr_of_setattr_is_Some. by rewrite Hsta_attr.
Qed.




(** The saved original stays on the module after [unpatch]. *)
Example patch_unpatch_kfp :
  (patch wandb_version kfp_components ;; unpatch kfp_components) interp0
  = ({| modules :=
          {[ kfp_components :=
               {[ "create_component_from_func" := kfp_original;
                  "orig_create_component_from_func" := kfp_original ]} ]};
        patched := {[ kfp_components := [] ]} |}, ok ()).
Proof. vm_compute. reflexivity. Qed.

(** [unpatch] of a module that was never patched finds no registry entry. *)
Example unpatch_unknown :
  unpatch "kfp.dsl" interp0 = (interp0, raise (KeyError "kfp.dsl")).
Proof. vm_compute. reflexivity. Qed.

(** The soundness of the registry entry is an invariant: it holds while
    the module has no entry or an empty one, and [patch] keeps it. *)
Lemma registry_ok_fresh st m :
  default [] (patched st !! m) = [] -> registry_ok st m.
Proof. intros H. unfold registry_ok. rewrite H. constructor. Qed.

Lemma patch_registry_ok st (func : pyobj) m st1 :
  registry_ok st m -> patch func m st = (st1, ok ()) -> registry_ok st1 m.
Proof.
  intros Hreg Hpatch.
  destruct (attr_of st m (__name__ func)) as [v0|] eqn:Hattr.
  - destruct (patch_run st func m v0 Hattr)
      as (st1' & Hpatch' & Hent1 & _ & Horig1 & _ & Hsome1).
    rewrite Hpatch in Hpatch'. injection Hpatch' as <-.
    unfold registry_ok. rewrite Hent1. simpl.
    apply Forall_app. split.
    + eapply Forall_impl; [exact Hreg|]. intros e [He Hsaved]. split; [done|].
      by apply Hsome1.
    + repeat constructor. simpl. rewrite Horig1. eauto.
  - exfalso. revert Hpatch. unfold patch, mbind at 1, stateful_bind.
    assert (Hrun : exists sta, patched_setdefault m st = (sta, ok ()) /\
                     forall b, attr_of sta m b = attr_of st m b).
    { unfold patched_setdefault. destruct (patched st !! m); eexists; split; done. }
    destruct Hrun as (sta & -> & Hsta).
    unfold mbind at 1, stateful_bind, getattr. by rewrite Hsta, Hattr.
Qed.

(** *** _get_function_source_definition *)

Lemma split_nonempty (sep : ascii) (s : string) : split sep s <> [].
Proof.
  induction s as [|c s IH]; simpl; [done|].
  destruct (decide (c = sep)); [done|].
  by destruct (split sep s).
Qed.

Lemma join_split (sep : ascii) (s : string) :
  join (String sep EmptyString) (split sep s) = s.
Proof.
  induction s as [|c s IH]; simpl; [done|].
  pose proof (split_nonempty sep s) as Hne.
  destruct (decide (c = sep)) as [->|Hc].
  - destruct (split sep s) as [|l ls]; [done|].
    simpl in *. by rewrite IH.
  - destruct (split sep s) as [|l ls]; [done|].
    destruct ls as [|l' ls]; simpl in *; by rewrite <- IH.
Qed.

Example split_decorated :
  split newline ("@op" +:+ String newline "def f(): pass") = ["@op"; "def f(): pass"].
Proof. reflexivity. Qed.

(** C10: whenever [inspect.getsource] yields a source, splitting the
    dedented source gives a non-empty list, the [ValueError] branch is
    not taken, and the result is the lines joined again, that is the
    whole dedented source, decorator lines included. *)
Theorem source_definition_total (S : source_lib) (func : pyobj) (src : string) :
  getsource S func = ok src ->
  split newline (dedent S src) <> [] /\
  _get_function_source_definition S func
  = ok (join (String newline EmptyString) (split newline (dedent S src))) /\
  _get_function_source_definition S func = ok (dedent S src) /\
  (forall msg, _get_function_source_definition S func <> raise (ValueError msg)).
Proof.
  intros Hsrc.
  pose proof (split_nonempty newline (dedent S src)) as Hne.
  assert (Hrun : _get_function_source_definition S func
                 = ok (join (String newline EmptyString)
                            (split newline (dedent S src)))).
  { unfold _get_function_source_definition. rewrite Hsrc. simpl.
    by destruct (split newline (dedent S src)). }
  split_and!; [exact Hne | exact Hrun | | ].
  - rewrite Hrun. by rewrite join_split.
  - intros msg. by rewrite Hrun.
Qed.

Lemma source_definition_total_witness :
  _get_function_source_definition source0 kfp_original
  = ok ("@op" +:+ String newline "def create_component_from_func(): pass").
Proof.
  destruct (source_definition_total source0 kfp_original
              ("@op" +:+ String newline "def create_component_from_func(): pass")
              eq_refl) as (_ & _ & Hres & _).
  exact Hres.
Defined.

(** *** create_component_from_func *)

(** The state after the [+=] on a list object. *)
Lemma iadd_list id (y : list string) (st : kfp_state) :
  iadd (PyList id) y st
  = ({| lists := fun id' => if decide (id' = id) then lists st id ++ y
                            else lists st id';
        calls := calls st |}, ok id).
Proof. reflexivity. Qed.

(** One call with a list: the [+=], then the kfp calls in their order
    until one of them raises. *)
Lemma create_component_run (K : kfp_lib) func extra_code output_component_file
    base_image id annotations (st : kfp_state) :
  let packages := lists st id ++ ["wandb"] in
  let cs := expected_calls func extra_code output_component_file base_image
              packages annotations in
  create_component_from_func K func extra_code output_component_file base_image
    (PyList id) annotations st
  = ({| lists := lists (iadd (PyList id) ["wandb"] st).1;
        calls := calls st ++ (until_raise K cs).1 |},
     match (until_raise K cs).2 with
     | Some e => raise e
     | None =>
       ok {| component_spec_of :=
               spec_for func extra_code base_image packages annotations |}
     end).
Proof.
  cbv zeta.
  unfold create_component_from_func, expected_calls, spec_for,
    _func_to_component_spec, _create_task_factory_from_component_spec, call,
    iadd, mbind, stateful_bind, mret, stateful_ret, ok, raise.
  destruct (truthy_list annotations), (truthy_string output_component_file);
    cbn; rewrite !decide_True by done;
    repeat match goal with
      | |- context [kfp_raises K ?c] => destruct (kfp_raises K c); cbn
      end;
    rewrite <- ?app_assoc; reflexivity.
Qed.

(** Where a run of calls ends in an exception, the last call made is
    the one that raised it. *)
Lemma until_raise_last (K : kfp_lib) cs e :
  (until_raise K cs).2 = Some e ->
  exists c, last (until_raise K cs).1 = Some c /\ kfp_raises K c = Some e.
Proof.
  induction cs as [|c cs IH]; simpl; [done|].
  destruct (kfp_raises K c) as [e'|] eqn:Hc.
  - intros [= <-]. by exists c.
  - destruct (until_raise K cs) as [made r] eqn:Hrun. simpl in *.
    intros Hr. destruct (IH Hr) as (c' & Hlast & Hc'). exists c'. split; [|done].
    destruct made as [|c1 made]; [done|]. exact Hlast.
Qed.

(** The calls made start with the first one. *)
Lemma until_raise_head (K : kfp_lib) c cs :
  exists rest, (until_raise K (c :: cs)).1 = c :: rest.
Proof.
  simpl. destruct (kfp_raises K c); [by eexists|].
  destruct (until_raise K cs). by eexists.
Qed.

(** C9: with [packages_to_install] left at its default [None], the call
    raises [TypeError] at the [+=], whatever kfp would do; nothing has
    been asked of kfp by then, so no component spec exists.  It is the
    [None] that makes the statement raise: with a list the statement
    passes, the conversion is called with the packages followed by
    [wandb], and an exception can only be one that a call into kfp
    raised. *)
Theorem default_packages_raise (K : kfp_lib) func extra_code output_component_file
    base_image annotations (st : kfp_state) :
  create_component_from_func K func extra_code output_component_file base_image
    PyNone annotations st
  = (st,
     raise (TypeError "unsupported operand type(s) for +=: 'NoneType' and 'list'")) /\
  (forall id,
     let run := create_component_from_func K func extra_code output_component_file
                  base_image (PyList id) annotations st in
     (exists rest,
        calls run.1
        = calls st ++ FuncToComponentSpec func extra_code base_image
                        (lists st id ++ ["wandb"]) :: rest) /\
     (forall e, run.2 = raise e ->
        exists c, last (calls run.1) = Some c /\ kfp_raises K c = Some e)).
Proof.
  split; [reflexivity|].
  intros id. cbv zeta. rewrite create_component_run. cbv zeta. cbn [fst snd calls].
  set (cs := expected_calls _ _ _ _ _ _). split.
  - destruct (until_raise_head K
                (FuncToComponentSpec func extra_code base_image
                   (lists st id ++ ["wandb"]))
                ((if truthy_list annotations
                  then [MetadataSpec (default [] annotations)] else [])
                 ++ (if truthy_string output_component_file
                     then [Save (spec_for func extra_code base_image
                                   (lists st id ++ ["wandb"]) annotations)
                             (default "" output_component_file)] else [])
                 ++ [CreateTaskFactory
                       (spec_for func extra_code base_image
                          (lists st id ++ ["wandb"]) annotations)]))
      as [rest Hrest].
    exists rest. by rewrite <- Hrest.
  - intros e He.
    destruct (until_raise K cs).2 as [e'|] eqn:Hr; [|discriminate].
    injection He as <-.
    destruct (until_raise_last K cs e' Hr) as (c & Hlast & Hc).
    exists c. split; [|done].
    destruct (until_raise K cs).1 as [|c1 made] eqn:Hmade; [discriminate|].
    by rewrite last_app_cons.
Qed.

(** With a list the call goes through and pip-installs [wandb] last;
    where kfp has no [MetadataSpec], annotations make it raise after the
    conversion. *)
Example explicit_packages_pass :
  let run := create_component_from_func kfp_fine wandb_version "" None
               (Some "python:3.7") (PyList 0) None kfp_state0 in
  let spec := {| spec_func := wandb_version; spec_extra_code := "";
                 spec_base_image := Some "python:3.7";
                 spec_packages := ["pandas==0.24"; "wandb"];
                 metadata := None |} in
  run.2 = ok {| component_spec_of := spec |} /\
  calls run.1 = [FuncToComponentSpec wandb_version "" (Some "python:3.7")
                   ["pandas==0.24"; "wandb"];
                 CreateTaskFactory spec] /\
  lists run.1 0%nat = ["pandas==0.24"; "wandb"].
Proof. cbv zeta. split_and!; reflexivity. Qed.

Example annotations_without_metadata_spec :
  let run := create_component_from_func kfp_without_metadata wandb_version ""
               None None (PyList 0) (Some [("team", "ml")]) kfp_state0 in
  run.2 = raise (AttributeError "kfp.components.structures" "MetadataSpec") /\
  calls run.1 = [FuncToComponentSpec wandb_version "" None
                   ["pandas==0.24"; "wandb"];
                 MetadataSpec [("team", "ml")]] /\
  lists run.1 0%nat = ["pandas==0.24"; "wandb"].
Proof. cbv zeta. split_and!; reflexivity. Qed.

End KfpPatchSpec.

(** ** More properties of the supervisor *)

Module SupervisorFacts.
Import Py MockServer Fixtures Supervisor.
Local Open Scope nat_scope.

Implicit Types (w : world) (h : handle) (n i j k : nat) (tr : list event).

(** A loop left through [break] was answered with 200 at some index, and
    found the child alive whenever it looked before. *)
Lemma poll_loop_started_inv w h n i :
  (poll_loop w h n i).2 = Started ->
  exists k, k < n /\ answers_ok w (i + k) = true /\
            forall j, j < k -> exit_seen w (i + j) = false.
Proof.
  revert h i. induction n as [|n IH]; intros h i; simpl; [done|].
  destruct (liveness w i) as [code|d] eqn:Hlive.
  - destruct (code =? HTTP_OK)%Z eqn:Hcode.
    + intros _. exists 0. split_and!; [lia | | intros j Hj; lia].
      rewrite Nat.add_0_r. unfold answers_ok. by rewrite Hlive.
    + specialize (IH h (S i)).
      destruct (poll_loop w h n (S i)) as [[tr h'] x]. simpl in *.
      intros Hx. destruct (IH Hx) as (k & Hk & Hok & Hbefore).
      exists (S k). split_and!; [lia | by rewrite Nat.add_succ_r |].
      intros [|j] Hj.
      * rewrite Nat.add_0_r. unfold exit_seen. by rewrite Hlive.
      * rewrite Nat.add_succ_r. apply Hbefore. lia.
  - destruct (poll w i) as [rc|] eqn:Hpoll; [done|].
    match goal with |- context [poll_loop w ?h1 n (S i)] =>
      specialize (IH h1 (S i)); destruct (poll_loop w h1 n (S i)) as [[tr h'] x]
    end.
    simpl in *. intros Hx. destruct (IH Hx) as (k & Hk & Hok & Hbefore).
    exists (S k). split_and!; [lia | by rewrite Nat.add_succ_r |].
    intros [|j] Hj.
    + rewrite Nat.add_0_r. unfold exit_seen. by rewrite Hlive, Hpoll.
    + rewrite Nat.add_succ_r. apply Hbefore. lia.
Qed.

(** What the loop as such does and does not do, however it is left: it
    never terminates the child, it blocks for at most six seconds per
    index, and the exit code stays unset unless the loop raises. *)
Lemma poll_loop_bounds w h n i :
  terminations (poll_loop w h n i).1.1 = 0 /\
  (worst_case_seconds (poll_loop w h n i).1.1 <= 6 * Z.of_nat n)%Z /\
  (returncode h = None ->
   (forall e, (poll_loop w h n i).2 <> Raised e) ->
   returncode (poll_loop w h n i).1.2 = None) /\
  ((poll_loop w h n i).2 = Exhausted -> requests_made (poll_loop w h n i).1.1 = n).
Proof.
  revert h i. induction n as [|n IH]; intros h i.
  { simpl. split_and!; [done | done | done | done]. }
  cbn [poll_loop].
  destruct (liveness w i) as [code|d].
  - destruct (code =? HTTP_OK)%Z.
    { cbn. unfold attempt_timeout. split_and!; [done | lia | done | done]. }
    specialize (IH h (S i)).
    destruct (poll_loop w h n (S i)) as [[tr h'] x].
    destruct IH as (Hterm & Htime & Hrc & Hreq). cbn in *.
    unfold attempt_timeout. split_and!; [done | lia | done |].
    intros Hx. unfold requests_made in *. cbn. f_equal. by apply Hreq.
  - destruct (poll w i) as [rc|] eqn:Hpoll.
    { cbn. unfold attempt_timeout. split_and!; [done | lia | | done].
      intros _ Hne. by destruct (Hne (ValueError "Server failed to start.")). }
    match goal with |- context [poll_loop w ?h1 n (S i)] =>
      specialize (IH h1 (S i)); destruct (poll_loop w h1 n (S i)) as [[tr h'] x]
    end.
    destruct IH as (Hterm & Htime & Hrc & Hreq). cbn in *.
    unfold attempt_timeout, backoff. split_and!; [done | lia | |].
    + intros _ Hne. by apply Hrc.
    + intros Hx. unfold requests_made in *. cbn. f_equal. by apply Hreq.
Qed.


Lemma terminations_app tr1 tr2 :
  terminations (tr1 ++ tr2) = terminations tr1 + terminations tr2.
Proof. unfold terminations. by rewrite List.filter_app, length_app. Qed.

Lemma requests_made_app tr1 tr2 :
  requests_made (tr1 ++ tr2) = requests_made tr1 + requests_made tr2.
Proof. unfold requests_made. by rewrite List.filter_app, length_app. Qed.

Lemma dump_log_quiet w :
  worst_case_seconds (dump_log w) = 0%Z /\ terminations (dump_log w) = 0 /\
  requests_made (dump_log w) = 0.
Proof.
  unfold dump_log. destruct (log_readlines w) as [e|lines]; [done|].
  unfold terminations, requests_made. cbn.
  induction lines as [|l lines IH]; [done|]. exact IH.
Qed.

(** X1: [start_mock_server] returns a handle exactly when some attempt
    within the budget is answered with 200 and no attempt before it found
    the child exited; in every other run it raises. *)
Theorem handle_iff_comes_up w :
  ((exists h, (start_mock_server w).2 = ok h) <-> comes_up w) /\
  (raises (start_mock_server w).2 <-> ~ comes_up w).
Proof.
  assert (Hiff : (exists h, (start_mock_server w).2 = ok h) <-> comes_up w).
  { unfold start_mock_server, start_mock_server_state, comes_up.
    match goal with |- context [poll_loop w ?h0 attempts 0] => set (h0' := h0) end.
    pose proof (poll_loop_started_inv w h0' attempts 0) as Hinv.
    pose proof (MockServerSpec.poll_loop_started w h0' attempts 0) as Hstart.
    destruct (poll_loop w h0' attempts 0) as [[tr h'] x]. simpl in *.
    split.
    - intros [h Hh]. destruct x; [|discriminate..]. by apply Hinv.
    - intros (k & Hk & Hok & Hbefore). rewrite (Hstart k Hk Hok Hbefore). eauto. }
  split; [exact Hiff|]. rewrite <- Hiff. unfold raises.
  destruct (start_mock_server w).2 as [e|h].
  - split; [intros _ [h' [=]] | eauto].
  - split; [intros [e [=]] | intros Hno; destruct Hno; eauto].
Qed.

(** X2: a run that returns a handle has not terminated the child, has
    announced the port as its last action, and returns a handle whose
    port and base URL are those of the allocated port and whose exit
    code is unset. *)
Theorem success_leaves_child_running w h :
  (start_mock_server w).2 = ok h ->
  ~ In EvTerminate (start_mock_server w).1 /\
  last (start_mock_server w).1 = Some (EvPrint (MsgListening (free_port w))) /\
  h = {| _port := free_port w; base_url := format_base_url (free_port w);
         returncode := None |}.
Proof.
  unfold start_mock_server, start_mock_server_state.
  match goal with |- context [poll_loop w ?h0 attempts 0] => set (h0' := h0) end.
  pose proof (poll_loop_bounds w h0' attempts 0) as (Hterm & _ & Hrc & _).
  pose proof (MockServerSpec.poll_loop_handle w h0' attempts 0) as [Hport Hurl].
  destruct (poll_loop w h0' attempts 0) as [[tr h'] x]. simpl in *.
  destruct x; [|discriminate..]. intros [= <-]. split_and!.
  - intros [?|Hin]; [discriminate|].
    apply in_app_or in Hin as [Hin|[?|[]]]; [|discriminate].
    unfold terminations in Hterm.
    assert (Hf : In EvTerminate (List.filter is_terminate tr)).
    { apply List.filter_In. by split. }
    destruct (List.filter is_terminate tr); [done | discriminate].
  - cbn [fst snd]. rewrite Hport, app_comm_cons. by rewrite last_snoc.
  - destruct h' as [p u rc]. simpl in *. subst p u. f_equal.
    apply Hrc; [done | intros e; discriminate].
Qed.

Lemma success_leaves_child_running_witness :
  ~ In EvTerminate (start_mock_server w_up).1 /\
  last (start_mock_server w_up).1 = Some (EvPrint (MsgListening 8080)) /\
  {| _port := 8080; base_url := "http://localhost:8080"; returncode := None |}
  = {| _port := free_port w_up; base_url := format_base_url (free_port w_up);
       returncode := None |}.
Proof.
  apply (success_leaves_child_running w_up). vm_compute. reflexivity.
Defined.


(** X4: the child is terminated at most once, and only by a run that
    has made all ten requests; such a run raises. *)
Theorem terminate_only_after_full_budget w :
  terminations (start_mock_server w).1 <= 1 /\
  (In EvTerminate (start_mock_server w).1 ->
   requests_made (start_mock_server w).1 = attempts /\
   raises (start_mock_server w).2).
Proof.
  unfold start_mock_server, start_mock_server_state.
  match goal with |- context [poll_loop w ?h0 attempts 0] => set (h0' := h0) end.
  pose proof (poll_loop_bounds w h0' attempts 0) as (Hterm & _ & _ & Hreq).
  destruct (dump_log_quiet w) as (_ & Hdt & Hdr).
  destruct (poll_loop w h0' attempts 0) as [[tr h'] x]. simpl in Hterm, Hreq.
  assert (Hnot : ~ In EvTerminate tr).
  { intros Hin. unfold terminations in Hterm.
    assert (Hf : In EvTerminate (List.filter is_terminate tr)).
    { apply List.filter_In. by split. }
    destruct (List.filter is_terminate tr); [done | discriminate]. }
  destruct x as [| |e]; cbn [fst snd].
  - split.
    + change (terminations ([EvPopen (free_port w)] ++ tr ++
                [EvPrint (MsgListening (_port h'))]) <= 1).
      rewrite !terminations_app, Hterm. cbn. lia.
    + intros [?|Hin]; [discriminate|].
      apply in_app_or in Hin as [Hin|[?|[]]]; [done | discriminate].
  - split.
    + change (terminations ([EvPopen (free_port w)] ++ tr ++
                [EvTerminate; EvPrint MsgFailedToLaunch] ++ dump_log w) <= 1).
      rewrite !terminations_app, Hterm, Hdt. cbn. lia.
    + intros _. split; [|eexists; reflexivity].
      change (requests_made ([EvPopen (free_port w)] ++ tr ++
                [EvTerminate; EvPrint MsgFailedToLaunch] ++ dump_log w) = attempts).
      rewrite !requests_made_app, Hdr, (Hreq eq_refl). unfold attempts. cbn. lia.
  - split.
    + change (terminations ([EvPopen (free_port w)] ++ tr) <= 1).
      rewrite !terminations_app, Hterm. cbn. lia.
    + intros [?|Hin]; [discriminate | done].
Qed.

End SupervisorFacts.

(** ** More properties of the fixtures *)

Module FixtureFacts.
Import Py Fixtures Supervisor MoreFixtures.

Implicit Types (L : lib) (st : state) (k v : string) (d : list (string * string))
               (e : gmap string string).

#[local] Arguments without : simpl never.
#[local] Arguments injected : simpl never.

(** *** Environment of the server process *)

Lemma lookup_without keys e k :
  without keys e !! k = if decide (k ∈ keys) then None else e !! k.
Proof.
  induction keys as [|k' keys IH].
  { destruct (decide (k ∈ [])) as [H|]; [by apply elem_of_nil in H | done]. }
  change (without (k' :: keys) e) with (delete k' (without keys e)).
  destruct (decide (k' = k)) as [->|Hne].
  - rewrite lookup_delete_eq. rewrite decide_True; [done | by left].
  - rewrite lookup_delete_ne by done. rewrite IH.
    destruct (decide (k ∈ keys)) as [Hin|Hout].
    + rewrite decide_True; [done | by right].
    + rewrite decide_False; [done|]. by intros [->|?]%elem_of_cons.
Qed.

(** X5: the port and the path written for the child are written into
    the environment of the test process itself, which is also what the
    child receives; every other variable is untouched, and the two stay
    set through any [live_mock_server] test whose body leaves them
    alone. *)
Theorem server_environment_is_shared (port : Z) (root : string) st :
  let run := export_server_environment port root st in
  run.2 = ok (os_environ run.1) /\
  os_environ run.1 !! "PORT" = Some (pretty port) /\
  os_environ run.1 !! "PYTHONPATH" = Some root /\
  (forall k, k <> "PORT" -> k <> "PYTHONPATH" ->
     os_environ run.1 !! k = os_environ st !! k) /\
  (forall L server name up body,
     (forall h, keeps_var "PORT" (body h)) ->
     os_environ (run_live_mock_server L server name up body run.1).1.1 !! "PORT"
     = Some (pretty port)).
Proof.
  cbv zeta. unfold export_server_environment, mbind, stateful_bind. simpl.
  split_and!; [done | | | |].
  - rewrite lookup_insert_ne by done. by rewrite lookup_insert_eq.
  - by rewrite lookup_insert_eq.
  - intros k H1 H2. by rewrite !lookup_insert_ne.
  - intros L server name up body Hbody. unfold run_live_mock_server.
    rewrite FixturesSpec.keeps_var_with_fixture.
    + simpl. rewrite lookup_insert_ne by done. by rewrite lookup_insert_eq.
    + apply FixturesSpec.live_mock_server_setup_keeps.
      unfold live_mock_server_keys. intros H.
      repeat (apply elem_of_cons in H as [H|H]; [discriminate|]).
      by apply elem_of_nil in H.
    + apply FixturesSpec.live_mock_server_teardown_keeps.
      unfold live_mock_server_keys. intros H.
      repeat (apply elem_of_cons in H as [H|H]; [discriminate|]).
      by apply elem_of_nil in H.
    + exact Hbody.
Qed.

(** X6: different ports give different base URLs, hence different
    [WANDB_BASE_URL] values and context URLs. *)
Theorem base_url_determines_port (p q : Z) :
  MockServer.format_base_url p = MockServer.format_base_url q -> p = q.
Proof.
  unfold MockServer.format_base_url. intros H.
  apply (inj (String.app "http://localhost:")) in H.
  by apply (inj pretty) in H.
Qed.

Lemma base_url_determines_port_witness : (8080 : Z) = 8080.
Proof. apply base_url_determines_port. reflexivity. Defined.

(** *** live_mock_server *)

Lemma live_setup_up L server name st :
  live_mock_server_setup L server name true st
  = (with_ctx ∅ (with_environ (injected L server name (os_environ st)) st), ok server).
Proof. reflexivity. Qed.

Lemma live_setup_down L server name st :
  live_mock_server_setup L server name false st
  = (with_environ (injected L server name (os_environ st)) st,
     raise (RequestException "connection refused")).
Proof. reflexivity. Qed.

Lemma four_deletes e :
  delete "WANDB_API_KEY"
    (delete "WANDB_ERROR_REPORTING"
       (delete "WANDB_BASE_URL" (delete "WANDB_USERNAME" e)))
  = without live_mock_server_keys e.
Proof.
  apply map_eq. intros k. rewrite lookup_without.
  unfold live_mock_server_keys.
  destruct (decide (k = "WANDB_API_KEY")) as [->|?];
    [rewrite lookup_delete_eq; by rewrite decide_True by (by repeat constructor)|].
  rewrite lookup_delete_ne by done.
  destruct (decide (k = "WANDB_ERROR_REPORTING")) as [->|?];
    [rewrite lookup_delete_eq; by rewrite decide_True by (by repeat constructor)|].
  rewrite lookup_delete_ne by done.
  destruct (decide (k = "WANDB_BASE_URL")) as [->|?];
    [rewrite lookup_delete_eq; by rewrite decide_True by (by repeat constructor)|].
  rewrite lookup_delete_ne by done.
  destruct (decide (k = "WANDB_USERNAME")) as [->|?];
    [rewrite lookup_delete_eq; by rewrite decide_True by (by repeat constructor)|].
  rewrite lookup_delete_ne by done.
  rewrite decide_False; [done|]. intros H.
  repeat (apply elem_of_cons in H as [H|H]; [done|]). by apply elem_of_nil in H.
Qed.

Lemma live_teardown_all_set st :
  (forall k, k ∈ live_mock_server_keys -> is_Some (os_environ st !! k)) ->
  live_mock_server_teardown st
  = (with_environ (without live_mock_server_keys (os_environ st)) st, ok ()).
Proof.
  intros Hset. rewrite <- four_deletes.
  destruct (Hset "WANDB_USERNAME") as [v1 H1]; [by repeat constructor|].
  destruct (Hset "WANDB_BASE_URL") as [v2 H2]; [by repeat constructor|].
  destruct (Hset "WANDB_ERROR_REPORTING") as [v3 H3]; [by repeat constructor|].
  destruct (Hset "WANDB_API_KEY") as [v4 H4]; [by repeat constructor|].
  unfold live_mock_server_teardown, mbind, stateful_bind, environ_delitem.
  rewrite H1. simpl. rewrite lookup_delete_ne by done. rewrite H2. simpl.
  rewrite !lookup_delete_ne by done. rewrite H3. simpl.
  rewrite !lookup_delete_ne by done. rewrite H4. reflexivity.
Qed.

Lemma injected_lookup L server name e k :
  injected L server name e !! k
  = if decide (k = "WANDB_API_KEY") then Some DUMMY_API_KEY
    else if decide (k = "WANDB_ERROR_REPORTING") then Some "false"
    else if decide (k = "WANDB_BASE_URL") then Some (MockServer.base_url server)
    else if decide (k = "WANDB_USERNAME") then Some (quote L name)
    else e !! k.
Proof.
  unfold injected. repeat case_decide; subst;
    repeat (rewrite lookup_insert_eq || rewrite lookup_insert_ne by done); done.
Qed.

(** X7: around a body that leaves the environment as it found it, a
    [live_mock_server] test with a reachable server ends with none of the
    four variables set, whatever they held before, and with every other
    variable as before; the outcome is that of the body. *)
Theorem live_mock_server_unsets_its_variables L server name
    (body : MockServer.handle -> io unit) st :
  (forall h, keeps_environ (body h)) ->
  let run := run_live_mock_server L server name true body st in
  os_environ run.1.1 = without live_mock_server_keys (os_environ st) /\
  (forall k, k ∈ live_mock_server_keys -> os_environ run.1.1 !! k = None) /\
  run.2 = (body server (with_ctx ∅ (with_environ
             (injected L server name (os_environ st)) st))).2.
Proof.
  intros Hbody. cbv zeta.
  unfold run_live_mock_server, with_fixture. rewrite live_setup_up.
  unfold ok at 1 2 3. cbv beta iota.
  set (st1 := with_ctx ∅ (with_environ (injected L server name (os_environ st)) st)).
  pose proof (Hbody server st1) as Henv.
  destruct (body server st1) as [st2 outcome]. simpl in Henv.
  rewrite live_teardown_all_set.
  2:{ intros k Hk. rewrite Henv. unfold st1. simpl. rewrite injected_lookup.
      unfold live_mock_server_keys in Hk.
      repeat (apply elem_of_cons in Hk as [->|Hk]; [by eauto|]).
      by apply elem_of_nil in Hk. }
  simpl. rewrite Henv. unfold st1. simpl.
  assert (Heq : without live_mock_server_keys (injected L server name (os_environ st))
                = without live_mock_server_keys (os_environ st)).
  { apply map_eq. intros k. rewrite !lookup_without, injected_lookup.
    destruct (decide (k ∈ live_mock_server_keys)) as [Hin|Hout]; [done|].
    unfold live_mock_server_keys in Hout.
    repeat (apply not_elem_of_cons in Hout as [? Hout]).
    by rewrite !decide_False by done. }
  rewrite Heq. split_and!; [done | | by destruct outcome as [?|[]]].
  intros k Hk. rewrite lookup_without. by rewrite decide_True.
Qed.

Lemma live_mock_server_unsets_its_variables_witness :
  os_environ (run_live_mock_server lib0 server0 "test_x" true
                (fun _ => mret ()) st_dev).1.1 !! "WANDB_API_KEY" = None.
Proof.
  destruct (live_mock_server_unsets_its_variables lib0 server0 "test_x"
              (fun _ => mret ()) st_dev) as (_ & Hnone & _).
  - intros h st. reflexivity.
  - apply Hnone. by repeat constructor.
Defined.

(** X8: if the body leaves [WANDB_USERNAME] unset, the first [del] of
    the teardown raises [KeyError] and the teardown does nothing else:
    the state after the test is the state the body left, so the other
    three variables stay set if the body kept them. *)
Theorem live_mock_server_teardown_stops_at_missing L server name
    (body : MockServer.handle -> io unit) st :
  let st1 := with_ctx ∅ (with_environ (injected L server name (os_environ st)) st) in
  os_environ (body server st1).1 !! "WANDB_USERNAME" = None ->
  run_live_mock_server L server name true body st
  = ((body server st1).1, Some st1,
     match (body server st1).2 with
     | inl e => inl e
     | inr _ => raise (KeyError "WANDB_USERNAME")
     end).
Proof.
  cbv zeta. intros Hgone.
  unfold run_live_mock_server, with_fixture. rewrite live_setup_up.
  unfold ok at 1. cbv beta iota.
  destruct (body server _) as [st2 outcome]. simpl in Hgone.
  unfold live_mock_server_teardown, mbind, stateful_bind, environ_delitem.
  by rewrite Hgone.
Qed.

Lemma live_mock_server_teardown_stops_at_missing_witness :
  let run := run_live_mock_server lib0 server0 "test_x" true
               (fun _ => environ_delitem "WANDB_USERNAME") st_dev in
  run.2 = raise (KeyError "WANDB_USERNAME") /\
  os_environ run.1.1 !! "WANDB_API_KEY" = Some DUMMY_API_KEY.
Proof.
  cbv zeta.
  rewrite (live_mock_server_teardown_stops_at_missing lib0 server0 "test_x"
             (fun _ => environ_delitem "WANDB_USERNAME") st_dev).
  - split; vm_compute; reflexivity.
  - vm_compute. reflexivity.
Defined.

(** X9: when the server cannot be reached during the set-up, the
    request exception is the outcome, the body never starts, nothing is
    cleaned up, and the four variables stay set for the tests that
    follow. *)
Theorem live_mock_server_setup_failure_leaks L server name
    (body : MockServer.handle -> io unit) st :
  run_live_mock_server L server name false body st
  = (with_environ (injected L server name (os_environ st)) st, None,
     raise (RequestException "connection refused")) /\
  (forall k, k ∈ live_mock_server_keys ->
     is_Some (os_environ (run_live_mock_server L server name false body st).1.1 !! k)).
Proof.
  unfold run_live_mock_server, with_fixture. rewrite live_setup_down.
  split; [done|]. intros k Hk. simpl. rewrite injected_lookup.
  unfold live_mock_server_keys in Hk.
  repeat (apply elem_of_cons in Hk as [->|Hk]; [by eauto|]).
  by apply elem_of_nil in Hk.
Qed.

(** *** disable_console *)

(** X10: [disable_console] leaves [WANDB_CONSOLE] unset after a body
    that keeps the environment, whatever the variable held before; a
    body that unsets the variable itself makes the teardown raise
    [KeyError]. *)
Theorem disable_console_unsets (body : io unit) st :
  (keeps_environ body ->
   os_environ (run_disable_console body st).1
   = delete "WANDB_CONSOLE" (os_environ st) /\
   (run_disable_console body st).2
   = (body (with_environ (<["WANDB_CONSOLE" := "off"]> (os_environ st)) st)).2) /\
  (let st1 := with_environ (<["WANDB_CONSOLE" := "off"]> (os_environ st)) st in
   os_environ (body st1).1 !! "WANDB_CONSOLE" = None ->
   (body st1).2 = ok () ->
   run_disable_console body st = ((body st1).1, raise (KeyError "WANDB_CONSOLE"))).
Proof.
  unfold run_disable_console, generator_fixture, environ_setitem, environ_delitem.
  change (setitem_error "WANDB_CONSOLE") with (@None exn).
  change (delitem_error "WANDB_CONSOLE") with (@None exn).
  cbv beta iota. split.
  - intros Hbody.
    set (st1 := with_environ (<["WANDB_CONSOLE" := "off"]> (os_environ st)) st).
    pose proof (Hbody st1) as Henv.
    destruct (body st1) as [st2 outcome]. simpl in Henv.
    rewrite Henv. unfold st1. simpl.
    rewrite lookup_insert_eq. simpl. rewrite delete_insert_eq.
    split; [done | by destruct outcome as [?|[]]].
  - cbv zeta. intros Hgone Hok.
    destruct (body _) as [st2 outcome]. simpl in *. subst outcome.
    by rewrite Hgone.
Qed.

Lemma disable_console_unsets_witness :
  os_environ (run_disable_console (mret ()) st_dev).1 !! "WANDB_CONSOLE" = None /\
  (run_disable_console (environ_delitem "WANDB_CONSOLE") st_dev).2
  = raise (KeyError "WANDB_CONSOLE").
Proof.
  destruct (disable_console_unsets (mret ()) st_dev) as [Hkeep _].
  destruct (disable_console_unsets (environ_delitem "WANDB_CONSOLE") st_dev)
    as [_ Hgone].
  split.
  - destruct Hkeep as [-> _]; [intros st; reflexivity|]. apply lookup_delete_eq.
  - rewrite Hgone; [reflexivity | vm_compute; reflexivity | vm_compute; reflexivity].
Defined.

(** *** test_dir *)

(** X11: [test_dir] runs the body in [<root>/tests/logs/<name>] and
    afterwards puts the working directory back to what it was before the
    set-up, wherever the body went and whether or not it raised; the
    rest of the state is as the body left it. *)
Theorem test_dir_restores_cwd (root : list string) (name : string)
    (body : io unit) st :
  let st1 := with_cwd (root ++ ["tests"; "logs"; name]) st in
  run_test_dir root name body st
  = (with_cwd (cwd st) (body st1).1, (body st1).2) /\
  cwd (run_test_dir root name body st).1 = cwd st.
Proof.
  cbv zeta. unfold run_test_dir, generator_fixture.
  unfold mbind, stateful_bind, getcwd, test_dir_setup, chdir. simpl.
  destruct (body _) as [st2 [e|[]]]; done.
Qed.

(** *** wandb_init_run *)

Lemma setitem_keys k v d x :
  x ∈ (dict_setitem k v d).*1 <-> x = k \/ x ∈ d.*1.
Proof.
  induction d as [|[k' v'] d IH]; simpl.
  { rewrite list_elem_of_singleton. split; [by left | intros [?|H]; [done|]].
    by apply elem_of_nil in H. }
  destruct (decide (k = k')) as [->|Hne]; simpl.
  - rewrite !elem_of_cons. tauto.
  - rewrite !elem_of_cons, IH. tauto.
Qed.

Lemma setitem_NoDup k v d : NoDup d.*1 -> NoDup (dict_setitem k v d).*1.
Proof.
  induction d as [|[k' v'] d IH]; simpl; intros Hd.
  { apply NoDup_singleton. }
  apply NoDup_cons in Hd as [Hk' Hd].
  destruct (decide (k = k')) as [->|Hne]; simpl.
  - by apply NoDup_cons.
  - apply NoDup_cons. split; [|by apply IH].
    rewrite setitem_keys. intros [?|?]; done.
Qed.

Lemma update_keys d other x :
  x ∈ (dict_update d other).*1 <-> x ∈ d.*1 \/ x ∈ other.*1.
Proof.
  unfold dict_update. revert d.
  induction other as [|[k v] other IH]; intros d; simpl.
  { split; [by left | intros [?|H]; [done|]]. by apply elem_of_nil in H. }
  rewrite IH, setitem_keys, elem_of_cons. tauto.
Qed.

Lemma update_NoDup d other : NoDup d.*1 -> NoDup (dict_update d other).*1.
Proof.
  unfold dict_update. revert d.
  induction other as [|[k v] other IH]; intros d Hd; simpl; [done|].
  apply IH. by apply setitem_NoDup.
Qed.

(** X12: [mocks_from_args] keeps the keys of [args["env"]] distinct,
    keeps every key the test declared, and adds exactly the keys of the
    cluster mock (when [k8s] is given) and of the platform mock (when
    [sagemaker] is true). *)
Theorem mocks_from_args_keys L (args : wandb_args) :
  NoDup (env args).*1 ->
  NoDup (mocks_from_args L args).*1 /\
  (forall x, x ∈ (mocks_from_args L args).*1 <->
     x ∈ (env args).*1 \/
     (is_Some (k8s args) /\ x ∈ (mock_k8s L).*1) \/
     (sagemaker args = true /\ x ∈ (mock_sagemaker L).*1)).
Proof.
  intros Hd. unfold mocks_from_args. split.
  - destruct (k8s args), (sagemaker args); auto using update_NoDup.
  - intros x. destruct (k8s args), (sagemaker args);
      rewrite ?update_keys; split; intros H;
      repeat match goal with
        | H : _ \/ _ |- _ => destruct H
        | H : _ /\ _ |- _ => destruct H
        | H : is_Some None |- _ => by destruct H
        | H : false = true |- _ => discriminate
        end; eauto 6.
Qed.

Lemma mocks_from_args_keys_witness :
  NoDup (mocks_from_args lib0
           {| k8s := Some true; sagemaker := false; env := [("A", "1")] |}).*1.
Proof.
  apply (mocks_from_args_keys lib0
           {| k8s := Some true; sagemaker := false; env := [("A", "1")] |}).
  simpl. apply NoDup_singleton.
Defined.

(** A legal name passes the checks of both operations. *)
Lemma legal_name_errors k :
  legal_name k = true -> setitem_error k = None /\ delitem_error k = None.
Proof.
  unfold legal_name, setitem_error, delitem_error.
  destruct (mentions NUL k), (mentions "=" k), (String.eqb k ""); by intros [=].
Qed.

Lemma set_all_spec d st :
  Forall (fun k => legal_name k = true) d.*1 ->
  exists st',
    environ_set_all d st = (st', ok ()) /\
    (forall k, k ∈ d.*1 -> is_Some (os_environ st' !! k)) /\
    (forall k, k ∉ d.*1 -> os_environ st' !! k = os_environ st !! k).
Proof.
  revert st. induction d as [|[k v] d IH]; intros st Hlegal.
  { exists st. split_and!; [done | | done]. intros k H. by apply elem_of_nil in H. }
  simpl in Hlegal. apply Forall_cons in Hlegal as [Hk Hlegal].
  destruct (legal_name_errors k Hk) as [Hset _].
  destruct (IH (with_environ (<[k := v]> (os_environ st)) st) Hlegal)
    as (st' & Hrun & Hin & Hout).
  exists st'. split_and!.
  - cbn [environ_set_all]. unfold mbind, stateful_bind, environ_setitem at 1.
    rewrite Hset. exact Hrun.
  - intros k' Hk'. destruct (decide (k' ∈ d.*1)) as [?|Hno]; [by apply Hin|].
    simpl in Hk'. apply elem_of_cons in Hk' as [->|?]; [|done].
    rewrite (Hout k Hno). simpl. rewrite lookup_insert_eq. eauto.
  - intros k' Hk'. simpl in Hk'. apply not_elem_of_cons in Hk' as [Hne Hk'].
    rewrite (Hout k' Hk'). simpl. by rewrite lookup_insert_ne.
Qed.

Lemma del_all_spec d st :
  Forall (fun k => legal_name k = true) d.*1 ->
  NoDup d.*1 ->
  (forall k, k ∈ d.*1 -> is_Some (os_environ st !! k)) ->
  exists st',
    environ_del_all d st = (st', ok ()) /\
    os_environ st' = without d.*1 (os_environ st).
Proof.
  revert st. induction d as [|[k v] d IH]; intros st Hlegal Hd Hset.
  { exists st. done. }
  simpl in Hd. apply NoDup_cons in Hd as [Hk Hd].
  simpl in Hlegal. apply Forall_cons in Hlegal as [Hlk Hlegal].
  destruct (legal_name_errors k Hlk) as [_ Hdel].
  destruct (Hset k ltac:(left)) as [v' Hv'].
  destruct (IH (with_environ (delete k (os_environ st)) st) Hlegal Hd)
    as (st' & Hrun & Henv).
  { intros k' Hk'. simpl. rewrite lookup_delete_ne; [apply Hset; by right|].
    by intros ->. }
  exists st'. split.
  - cbn [environ_del_all]. unfold mbind, stateful_bind, environ_delitem at 1.
    rewrite Hdel, Hv'. exact Hrun.
  - rewrite Henv. simpl. apply map_eq. intros k'.
    rewrite !lookup_without.
    destruct (decide (k' = k)) as [->|Hne].
    + rewrite decide_False by done. rewrite lookup_delete_eq.
      rewrite decide_True; [done | by left].
    + rewrite lookup_delete_ne by done.
      destruct (decide (k' ∈ d.*1)) as [Hin|Hout].
      * rewrite decide_True; [done | by right].
      * rewrite decide_False; [done|]. by intros [->|?]%elem_of_cons.
Qed.

(** A name that [os.environ] refuses stops the set-up and then the
    clean-up: nothing is set, and a variable declared after it keeps
    what it held. *)
Example illegal_name_stops_cleanup :
  let run := run_wandb_init_run lib0
               {| k8s := None; sagemaker := false;
                  env := [("A=B", "1"); ("HOME", "/tmp")] |}
               (mret ()) st_dev in
  run.2 = raise (OSError "[Errno 22] Invalid argument") /\
  os_environ run.1 = os_environ st_dev.
Proof. split; vm_compute; reflexivity. Qed.

(** X13: [wandb_init_run] removes every variable it injected, also when
    [wandb.init] or the test body raised: provided the names it injects
    are names that [os.environ] accepts and the values hold no NUL, the
    library calls and the body leave the environment alone and
    [unset_globals] does not raise, the environment after the run is the
    one before it without the injected keys (whatever those held
    before). *)
Theorem wandb_init_run_unsets_its_variables L (args : wandb_args)
    (body : io unit) st :
  Forall (fun k => legal_name k = true) (mocks_from_args L args).*1 ->
  Forall (fun v => mentions NUL v = false) (mocks_from_args L args).*2 ->
  NoDup (env args).*1 ->
  keeps_environ (wandb_init L) -> keeps_environ (wandb_join L) ->
  keeps_environ (unset_globals L) -> never_raises (unset_globals L) ->
  keeps_environ body ->
  os_environ (run_wandb_init_run L args body st).1
  = without (mocks_from_args L args).*1 (os_environ st).
Proof.
  intros Hlegal _ Hd Hinit Hjoin Hunset Hquiet Hbody.
  assert (Hkeys : NoDup (mocks_from_args L args).*1).
  { unfold mocks_from_args.
    destruct (k8s args), (sagemaker args); auto using update_NoDup. }
  set (injected_env := mocks_from_args L args) in *.
  unfold run_wandb_init_run, try_finally. fold injected_env.
  destruct (set_all_spec injected_env st Hlegal) as (sA & HrunA & HinA & HoutA).
  unfold mbind at 1, stateful_bind at 1. rewrite HrunA.
  pose proof (Hinit sA) as HenvB.
  destruct (wandb_init L sA) as [sB rB]. simpl in HenvB.
  (* the state in which the [finally] block starts *)
  assert (Hfinal : forall sC, os_environ sC = os_environ sA ->
            os_environ ((unset_globals L ;; environ_del_all injected_env) sC).1
            = without injected_env.*1 (os_environ st)).
  { intros sC HenvC. unfold mbind, stateful_bind.
    pose proof (Hunset sC) as HenvD. destruct (Hquiet sC) as [[] HokD].
    destruct (unset_globals L sC) as [sD rD]. simpl in HenvD, HokD. subst rD.
    destruct (del_all_spec injected_env sD Hlegal Hkeys) as (sE & HrunE & HenvE).
    { intros k Hk. rewrite HenvD, HenvC. by apply HinA. }
    rewrite HrunE. simpl. rewrite HenvE, HenvD, HenvC.
    apply map_eq. intros k. rewrite !lookup_without.
    destruct (decide (k ∈ injected_env.*1)); [done | by apply HoutA]. }
  destruct rB as [e|[]]; cbv beta iota zeta delta [ok].
  - specialize (Hfinal sB HenvB).
    destruct ((unset_globals L ;; environ_del_all injected_env) sB) as [sE [e'|[]]];
      exact Hfinal.
  - pose proof (Hbody sB) as HenvC. destruct (body sB) as [sC outcome].
    pose proof (Hjoin sC) as HenvJ. destruct (wandb_join L sC) as [sJ joined].
    simpl in HenvC, HenvJ. cbv beta iota zeta.
    specialize (Hfinal sJ ltac:(congruence)).
    destruct ((unset_globals L ;; environ_del_all injected_env) sJ) as [sE [e'|[]]];
      exact Hfinal.
Qed.

Lemma wandb_init_run_unsets_its_variables_witness :
  os_environ (run_wandb_init_run lib0
                {| k8s := None; sagemaker := true; env := [("WANDB_API_KEY", "XXX")] |}
                (mret ()) st_dev).1
  = without ["WANDB_API_KEY"; "SM_TRAINING_ENV"] (os_environ st_dev).
Proof.
  apply (wandb_init_run_unsets_its_variables lib0
           {| k8s := None; sagemaker := true; env := [("WANDB_API_KEY", "XXX")] |}
           (mret ()) st_dev).
  - vm_compute. by repeat constructor.
  - vm_compute. by repeat constructor.
  - simpl. apply NoDup_singleton.
  - intros st. reflexivity.
  - intros st. reflexivity.
  - intros st. reflexivity.
  - intros st. by exists ().
  - intros st. reflexivity.
Defined.

(** *** local_netrc *)

Lemma contains_unfold (needle hay : string) :
  contains needle hay
  = String.prefix needle hay ||
    match hay with
    | String _ hay' => contains needle hay'
    | EmptyString => false
    end.
Proof. by destruct hay. Qed.

Lemma contains_infix (needle pre post : string) :
  contains needle (pre +:+ needle +:+ post) = true.
Proof.
  induction pre as [|c pre IH].
  - change ("" +:+ needle +:+ post) with (needle +:+ post).
    rewrite contains_unfold, FixturesSpec.prefix_app. done.
  - rewrite FixturesSpec.string_app_cons, contains_unfold, IH.
    apply orb_true_r.
Qed.

(** X14: the patched expansion looks for [netrc] anywhere in the path,
    not for a file name: every path with [netrc] somewhere in it, in
    whatever directory and with whatever around it, expands to one and
    the same file, and the original expansion is not consulted. *)
Theorem expand_matches_any_mention L (orig : expander) (d : list string)
    (pre post : string) :
  call_expanduser L (Sandboxed orig) d (pre +:+ "netrc" +:+ post)
  = realpath d "netrc".
Proof. simpl. by rewrite contains_infix. Qed.

Example expand_internetrc :
  os_path_expanduser lib0 (local_netrc_setup ["tmp"; "tmpA"] st_dev).1
    "~other/internetrc.txt"
  = "/tmp/tmpA/netrc".
Proof. vm_compute. reflexivity. Qed.

(** X15: the file that [local_netrc] creates in its sandbox is
    [.netrc]; the path that the patched expansion returns there is
    [netrc], a different one, for every path with the marker. *)
Theorem expansion_is_not_the_created_file L (orig : expander) (d : list string)
    (path : string) :
  contains "netrc" path = true ->
  call_expanduser L (Sandboxed orig) d path <> netrc_file_created d.
Proof.
  intros Hm. simpl. rewrite Hm. unfold realpath, netrc_file_created.
  rewrite !FixturesSpec.path_of_app. intros H.
  apply (inj (String.app (path_of d))) in H. vm_compute in H. discriminate.
Qed.

Lemma expansion_is_not_the_created_file_witness :
  os_path_expanduser lib0 (local_netrc_setup ["tmp"; "tmpA"] st_dev).1 "~/.netrc"
  <> netrc_file_created ["tmp"; "tmpA"].
Proof.
  apply (expansion_is_not_the_created_file lib0 Original ["tmp"; "tmpA"] "~/.netrc").
  reflexivity.
Defined.

(** *** mocked_module *)

Lemma mock_all_app (a b : list string) (st : util) :
  mock_all (a ++ b) st = mock_all b (mock_all a st).
Proof. revert st. induction a as [|x a IH]; intros st; simpl; [done | apply IH]. Qed.

Lemma mock_all_other (names : list string) (st : util) (n : string) :
  n ∉ names ->
  call_get_module (get_module (mock_all names st)) n
  = call_get_module (get_module st) n.
Proof.
  revert st. induction names as [|x names IH]; intros st Hn; simpl; [done|].
  apply not_elem_of_cons in Hn as [Hne Hn]. rewrite (IH _ Hn). simpl.
  by rewrite decide_False.
Qed.

Lemma mock_all_count (names : list string) (st : util) :
  mocks_made (mock_all names st) = (mocks_made st + length names)%nat.
Proof.
  revert st. induction names as [|x names IH]; intros st; simpl; [lia|].
  rewrite IH. simpl. lia.
Qed.

(** X16: after [mock_get_module] has been called for a series of
    names, [get_module] answers a name that was not mocked as before,
    and a mocked name with the mock made by the last call for it; each
    call makes a mock of its own. *)
Theorem mocked_module_latest_wins (st : util) :
  (forall names n, n ∉ names ->
     call_get_module (get_module (mock_all names st)) n
     = call_get_module (get_module st) n) /\
  (forall pre m post, m ∉ post ->
     call_get_module (get_module (mock_all (pre ++ m :: post) st)) m
     = MagicMock (mocks_made st + length pre)) /\
  (forall pre m,
     (mock_get_module m (mock_all pre st)).2
     = ok (MagicMock (mocks_made st + length pre))).
Proof.
  split_and!.
  - intros names n. apply mock_all_other.
  - intros pre m post Hm. rewrite mock_all_app. simpl.
    rewrite (mock_all_other post _ m Hm). simpl.
    rewrite decide_True by done. by rewrite mock_all_count.
  - intros pre m. unfold mock_get_module. simpl. by rewrite mock_all_count.
Qed.

Lemma mocked_module_latest_wins_witness :
  let st0 := {| get_module := LibraryGetModule; mocks_made := 0 |} in
  call_get_module (get_module (mock_all ["torch"; "keras"; "torch"] st0)) "torch"
  = MagicMock 2 /\
  call_get_module (get_module (mock_all ["torch"; "keras"; "torch"] st0)) "numpy"
  = FromLibrary "numpy".
Proof.
  intros st0. destruct (mocked_module_latest_wins st0) as (Hother & Hlast & _).
  split.
  - apply (Hlast ["torch"; "keras"] "torch" []). apply not_elem_of_nil.
  - rewrite Hother; [reflexivity|]. intros H.
    repeat (apply elem_of_cons in H as [H|H]; [discriminate|]).
    by apply elem_of_nil in H.
Defined.

(** *** restore_version and mocked_ipython *)

(** X17: [restore_version] puts [wandb.__version__] back to what it was
    before the test and removes [__hack_pypi_latest_version__], whatever
    the body did to either; its teardown does not raise, also when the
    second attribute was never set; the other attributes are as the body
    left them.  Without a [__version__] the set-up raises and the body
    does not run. *)
Theorem restore_version_round_trip {V} (body : stateful (gmap string V) unit)
    (ns : gmap string V) :
  (forall version : V, ns !! "__version__" = Some version ->
     let run := run_restore_version body ns in
     run.1 !! "__version__" = Some version /\
     run.1 !! "__hack_pypi_latest_version__" = None /\
     (forall k, k <> "__version__" -> k <> "__hack_pypi_latest_version__" ->
        run.1 !! k = (body ns).1 !! k) /\
     run.2 = (body ns).2) /\
  (ns !! "__version__" = None ->
   run_restore_version body ns = (ns, raise (AttributeError "wandb" "__version__"))).
Proof.
  unfold run_restore_version, generator_fixture, getattr_ns. split.
  - intros version ->. cbv zeta. destruct (body ns) as [ns2 outcome].
    unfold mbind, stateful_bind, setattr_ns, except_AttributeError, delattr_ns.
    cbv beta iota zeta delta [ok raise fst snd].
    destruct (<["__version__" := version]> ns2 !! "__hack_pypi_latest_version__")
      as [hack|] eqn:Hhack; cbv beta iota zeta delta [ok raise fst snd].
    + split_and!.
      * rewrite lookup_delete_ne by done. apply lookup_insert_eq.
      * apply lookup_delete_eq.
      * intros k H1 H2. rewrite lookup_delete_ne by done.
        by rewrite lookup_insert_ne.
      * by destruct outcome as [?|[]].
    + split_and!.
      * apply lookup_insert_eq.
      * exact Hhack.
      * intros k H1 H2. by rewrite lookup_insert_ne.
      * by destruct outcome as [?|[]].
  - by intros ->.
Qed.

Lemma restore_version_round_trip_witness :
  (run_restore_version
     (setattr_ns "__version__" "9.9.9" ;;
      setattr_ns "__hack_pypi_latest_version__" "9.9.9") wandb_ns).1
  !! "__version__" = Some "0.10.0".
Proof.
  destruct (restore_version_round_trip
              (setattr_ns "__version__" "9.9.9" ;;
               setattr_ns "__hack_pypi_latest_version__" "9.9.9") wandb_ns)
    as [Hok _].
  destruct (Hok "0.10.0") as [Hv _]; [vm_compute; reflexivity | exact Hv].
Defined.

(** X18: [mocked_ipython] shows the body the fake [get_ipython] and
    afterwards puts back the one that was installed before, whatever the
    body did to the attribute and whether or not it raised. *)
Theorem mocked_ipython_round_trip {V} (fake : V)
    (body : stateful (gmap string V) unit) (ns : gmap string V) (orig : V) :
  ns !! "get_ipython" = Some orig ->
  let st1 := <["get_ipython" := fake]> ns in
  run_mocked_ipython fake body ns
  = (<["get_ipython" := orig]> (body st1).1, (body st1).2) /\
  (run_mocked_ipython fake body ns).1 !! "get_ipython" = Some orig.
Proof.
  intros Horig. cbv zeta.
  unfold run_mocked_ipython, generator_fixture, mbind, stateful_bind, getattr_ns.
  rewrite Horig. unfold setattr_ns, mret, stateful_ret.
  cbv beta iota zeta delta [ok raise fst snd].
  destruct (body _) as [ns2 [e|[]]]; cbv beta iota zeta delta [ok raise fst snd];
    (split; [done | apply lookup_insert_eq]).
Qed.

Lemma mocked_ipython_round_trip_witness :
  (run_mocked_ipython "fake" (delattr_ns "wandb.jupyter" "get_ipython")
     {[ "get_ipython" := "real" ]}).1 !! "get_ipython" = Some "real".
Proof.
  apply (mocked_ipython_round_trip "fake" (delattr_ns "wandb.jupyter" "get_ipython")
           {[ "get_ipython" := "real" ]} "real").
  vm_compute. reflexivity.
Defined.

(** *** test_name *)

Lemma has_char_app (c : ascii) (a b : string) :
  has_char c (a +:+ b) = has_char c a || has_char c b.
Proof.
  induction a as [|x a IH]; [done|].
  rewrite FixturesSpec.string_app_cons. simpl. rewrite IH. by rewrite orb_assoc.
Qed.

Lemma has_char_replace_other (c old : ascii) (new s : string) :
  c <> old -> has_char c new = false ->
  has_char c (replace_char old new s) = has_char c s.
Proof.
  intros Hne Hnew. induction s as [|x s IH]; [done|]. simpl.
  destruct (decide (x = old)) as [->|Hx].
  - rewrite has_char_app, Hnew, IH. simpl.
    by rewrite bool_decide_eq_false_2 by (by intros ->).
  - simpl. by rewrite IH.
Qed.

Lemma has_char_replace_same (old : ascii) (new s : string) :
  has_char old new = false -> has_char old (replace_char old new s) = false.
Proof.
  intros Hnew. induction s as [|x s IH]; [done|]. simpl.
  destruct (decide (x = old)) as [->|Hx].
  - by rewrite has_char_app, Hnew, IH.
  - simpl. rewrite IH. by rewrite bool_decide_eq_false_2.
Qed.

Lemma replace_char_absent (old : ascii) (new s : string) :
  has_char old s = false -> replace_char old new s = s.
Proof.
  induction s as [|x s IH]; [done|]. simpl. intros H.
  apply orb_false_iff in H as [Hx Hs]. apply bool_decide_eq_false in Hx.
  rewrite decide_False by done. by rewrite IH.
Qed.

Lemma replace_char_app (old : ascii) (new a b : string) :
  replace_char old new (a +:+ b)
  = replace_char old new a +:+ replace_char old new b.
Proof.
  induction a as [|x a IH]; [done|].
  rewrite FixturesSpec.string_app_cons. simpl. rewrite IH.
  destruct (decide (x = old)); [by rewrite FixturesSpec.string_app_assoc | done].
Qed.

(** X19: the name that [test_name] hands to [quote] is the node name
    with every square bracket, opening or closing, turned into two
    underscores and every other character kept in place; so it contains
    no square bracket, whatever the test is called, and a name without
    brackets is handed over unchanged. *)
Theorem test_name_has_no_brackets (node_name : string) :
  has_char lbracket (without_brackets node_name) = false /\
  has_char rbracket (without_brackets node_name) = false /\
  (has_char lbracket node_name = false -> has_char rbracket node_name = false ->
   without_brackets node_name = node_name) /\
  (forall c rest, node_name = String c rest ->
     without_brackets node_name
     = (if bool_decide (c = lbracket) || bool_decide (c = rbracket)
        then "__" else String c "") +:+ without_brackets rest).
Proof.
  unfold without_brackets. split_and!.
  - rewrite has_char_replace_other; [by apply has_char_replace_same | done | done].
  - by apply has_char_replace_same.
  - intros Hl Hr. rewrite (replace_char_absent lbracket) by done.
    by apply replace_char_absent.
  - intros c rest ->. cbn [replace_char].
    destruct (decide (c = lbracket)) as [->|Hl].
    + rewrite replace_char_app. reflexivity.
    + rewrite (bool_decide_eq_false_2 _ Hl). cbn [replace_char orb].
      destruct (decide (c = rbracket)) as [->|Hr]; [reflexivity|].
      by rewrite (bool_decide_eq_false_2 _ Hr).
Qed.

Example test_name_parametrized :
  test_name lib0 "test[1]" = "test__1__".
Proof. reflexivity. Qed.

Lemma test_name_has_no_brackets_witness :
  without_brackets "test_plain" = "test_plain".
Proof.
  destruct (test_name_has_no_brackets "test_plain") as (_ & _ & Hsame & _).
  apply Hsame; reflexivity.
Defined.

End FixtureFacts.

(** ** More properties of the KFP shim *)

Module KfpShimFacts.
Import Py KfpPatch KfpShim.

Implicit Types (st : interp) (m a b name : string) (v : pyobj)
               (entries : list (string * string)).

(** *** patch and unpatch *)

Lemma attr_of_setattr_other st m a v m' b :
  m' <> m -> attr_of (setattr m a v st).1 m' b = attr_of st m' b.
Proof. intros Hne. unfold attr_of. simpl. by rewrite lookup_insert_ne. Qed.

(** The state that a [patch] of an existing attribute leaves. *)
Lemma patch_effect st (func : pyobj) m (v0 : pyobj) :
  attr_of st m (__name__ func) = Some v0 ->
  patch func m st
  = ({| modules :=
          <[m := <[__name__ func := func]>
                   (<[orig_ (__name__ func) := v0]> (default ∅ (modules st !! m)))]>
            (modules st);
        patched :=
          <[m := default [] (patched st !! m) ++ [(m, __name__ func)]]> (patched st) |},
     ok ()).
Proof.
  intros Hattr. unfold patch, mbind, stateful_bind, patched_setdefault.
  destruct (patched st !! m) as [l|] eqn:Hreg.
  - unfold getattr. rewrite Hattr. unfold setattr, patched_getitem. cbn.
    rewrite Hreg. cbn. rewrite lookup_insert_eq. cbn.
    by rewrite insert_insert_eq.
  - unfold getattr.
    change (attr_of {| modules := modules st; patched := <[m:=[]]> (patched st) |}
              m (__name__ func)) with (attr_of st m (__name__ func)).
    rewrite Hattr. unfold setattr, patched_getitem, patched_setitem. cbn.
    rewrite !lookup_insert_eq. cbn. by rewrite !insert_insert_eq.
Qed.

Lemma restore_all_cons m a rest m0 st :
  restore_all ((m, a) :: rest) m0 st
  = match attr_of st m (orig_ a) with
    | Some v => restore_all rest m (setattr m a v st).1
    | None => (st, raise (AttributeError m (orig_ a)))
    end.
Proof.
  cbn [restore_all]. unfold mbind, stateful_bind, getattr.
  by destruct (attr_of st m (orig_ a)).
Qed.

(** The loop of [unpatch] touches the module of its entries only, and
    never the registry. *)
Lemma restore_all_frame m entries m0 st :
  Forall (fun e => e.1 = m) entries ->
  patched (restore_all entries m0 st).1 = patched st /\
  forall m', m' <> m ->
    modules (restore_all entries m0 st).1 !! m' = modules st !! m'.
Proof.
  revert m0 st. induction entries as [|[m1 a] rest IH]; intros m0 st Hmod.
  { split; [reflexivity | intros; reflexivity]. }
  apply Forall_cons in Hmod as [Hm1 Hmod]. simpl in Hm1. subst m1.
  rewrite restore_all_cons.
  destruct (attr_of st m (orig_ a)) as [v|];
    [|split; [reflexivity | intros; reflexivity]].
  destruct (IH m (setattr m a v st).1 Hmod) as [Hpat Hframe].
  split; [exact Hpat|]. intros m' Hne. rewrite (Hframe m' Hne). simpl.
  by rewrite lookup_insert_ne.
Qed.

(** What [unpatch] does on a sound registry entry. *)
Lemma unpatch_run st m entries :
  registry_ok st m -> patched st !! m = Some entries ->
  exists st',
    unpatch m st = (st', ok ()) /\
    patched st' = <[m := []]> (patched st) /\
    (forall a, a ∈ entries.*2 -> orig_ a ∉ entries.*2 ->
       attr_of st' m a = attr_of st m (orig_ a)) /\
    (forall a, a ∉ entries.*2 -> attr_of st' m a = attr_of st m a) /\
    (forall m' b, m' <> m -> attr_of st' m' b = attr_of st m' b).
Proof.
  intros Hreg Hent. unfold registry_ok in Hreg. rewrite Hent in Hreg. simpl in Hreg.
  assert (Hmod : Forall (fun e => e.1 = m) entries).
  { eapply Forall_impl; [exact Hreg|]. by intros e [? _]. }
  destruct (KfpPatchSpec.restore_all_spec m entries st Hmod)
    as (st1 & Hrun & Hpat & Hin & Hout).
  { intros a Ha. apply list_elem_of_fmap in Ha as (e & -> & He).
    rewrite Forall_forall in Hreg. by destruct (Hreg e He). }
  destruct (restore_all_frame m entries m st Hmod) as [_ Hframe].
  rewrite Hrun in Hframe. simpl in Hframe.
  exists {| modules := modules st1; patched := <[m := []]> (patched st1) |}.
  split_and!.
  - assert (Hget : patched_getitem m st = (st, ok entries)).
    { unfold patched_getitem. by rewrite Hent. }
    unfold unpatch.
    rewrite (KfpPatchSpec.bind_ok _ _ _ _ _ Hget), (KfpPatchSpec.bind_ok _ _ _ _ _ Hrun).
    reflexivity.
  - simpl. by rewrite Hpat.
  - exact Hin.
  - exact Hout.
  - intros m' b Hne. unfold attr_of. simpl. by rewrite (Hframe m' Hne).
Qed.

(** What [patch] does when the module lacks the name. *)
Lemma patch_fail st (func : pyobj) m :
  attr_of st m (__name__ func) = None ->
  patch func m st
  = ((patched_setdefault m st).1, raise (AttributeError m (__name__ func))).
Proof.
  intros Hattr. unfold patch, patched_setdefault.
  destruct (patched st !! m) as [l|] eqn:Hreg.
  - unfold mbind, stateful_bind, getattr. rewrite Hreg, Hattr. reflexivity.
  - unfold mbind, stateful_bind, getattr. rewrite Hreg.
    change (attr_of {| modules := modules st; patched := <[m:=[]]> (patched st) |}
              m (__name__ func)) with (attr_of st m (__name__ func)).
    rewrite Hattr. reflexivity.
Qed.

(** [patch] touches nothing outside its module, raising or not. *)
Lemma patch_frame st (func : pyobj) m m' :
  m' <> m ->
  (forall b, attr_of (patch func m st).1 m' b = attr_of st m' b) /\
  patched (patch func m st).1 !! m' = patched st !! m'.
Proof.
  intros Hne. destruct (attr_of st m (__name__ func)) as [v0|] eqn:Hattr.
  - rewrite (patch_effect st func m v0 Hattr). cbn [fst]. split.
    + intros b. unfold attr_of. simpl. by rewrite lookup_insert_ne.
    + simpl. by rewrite lookup_insert_ne.
  - rewrite (patch_fail st func m Hattr). cbn [fst].
    unfold patched_setdefault. destruct (patched st !! m) as [l|] eqn:Hreg.
    + by split.
    + cbn [fst]. split; [done|]. simpl. by rewrite lookup_insert_ne.
Qed.

(** Soundness of a registry entry depends on its module only. *)
Lemma registry_ok_frame st st' m :
  patched st' !! m = patched st !! m ->
  (forall b, attr_of st' m b = attr_of st m b) ->
  registry_ok st m -> registry_ok st' m.
Proof.
  intros Hpat Hattr Hreg. unfold registry_ok in *. rewrite Hpat.
  eapply Forall_impl; [exact Hreg|].
  intros e [He Hsaved]. split; [done|]. by rewrite Hattr.
Qed.

(** X20: on a sound registry, [unpatch] of a module that has an entry
    does not raise and leaves the entry empty, and a second [unpatch]
    right after it changes nothing; [unpatch] of a module without an
    entry raises [KeyError] and changes nothing. *)
Theorem unpatch_is_idempotent st m :
  registry_ok st m ->
  (is_Some (patched st !! m) ->
   exists st', unpatch m st = (st', ok ()) /\
               patched st' !! m = Some [] /\
               unpatch m st' = (st', ok ())) /\
  (patched st !! m = None -> unpatch m st = (st, raise (KeyError m))).
Proof.
  intros Hreg. split.
  - intros [entries Hent].
    destruct (unpatch_run st m entries Hreg Hent) as (st' & Hrun & Hpat & _).
    assert (Hl : patched st' !! m = Some []) by (by rewrite Hpat, lookup_insert_eq).
    exists st'. split_and!; [exact Hrun | exact Hl |].
    unfold unpatch, mbind, stateful_bind, patched_getitem. rewrite Hl.
    cbn [restore_all]. unfold mret, stateful_ret, patched_setitem.
    f_equal. destruct st' as [M P]. simpl in *. f_equal. by apply insert_id.
  - intros Hnone. unfold unpatch, mbind, stateful_bind, patched_getitem.
    by rewrite Hnone.
Qed.

Lemma unpatch_is_idempotent_witness :
  exists st', unpatch kfp_components (patch wandb_version kfp_components interp0).1
              = (st', ok ()) /\
              unpatch kfp_components st' = (st', ok ()).
Proof.
  destruct (unpatch_is_idempotent (patch wandb_version kfp_components interp0).1
              kfp_components) as [Hsome _].
  - apply (KfpPatchSpec.patch_registry_ok interp0 wandb_version).
    + apply KfpPatchSpec.registry_ok_fresh. vm_compute. reflexivity.
    + vm_compute. reflexivity.
  - destruct Hsome as (st' & H1 & _ & H2).
    + vm_compute. eauto.
    + exists st'. by split.
Defined.

(** X21: [patch] of a name that the module does not have raises
    [AttributeError] and changes no attribute, but it has already made
    the registry entry of the module: the module now counts as patched,
    and [unpatch] of it, which raised [KeyError] before, passes. *)
Theorem failed_patch_registers_module st (func : pyobj) m :
  attr_of st m (__name__ func) = None ->
  exists st',
    patch func m st = (st', raise (AttributeError m (__name__ func))) /\
    modules st' = modules st /\
    patched st' !! m = Some (default [] (patched st !! m)) /\
    (patched st !! m = None ->
     unpatch m st = (st, raise (KeyError m)) /\ unpatch m st' = (st', ok ())).
Proof.
  intros Hattr. unfold patch, mbind at 1, stateful_bind at 1, patched_setdefault.
  destruct (patched st !! m) as [l|] eqn:Hreg.
  - exists st. unfold mbind, stateful_bind, getattr. rewrite Hattr.
    split_and!; [done | done | done | done].
  - exists {| modules := modules st; patched := <[m := []]> (patched st) |}.
    unfold mbind at 1, stateful_bind at 1, getattr.
    change (attr_of {| modules := modules st; patched := <[m:=[]]> (patched st) |}
              m (__name__ func)) with (attr_of st m (__name__ func)).
    rewrite Hattr.
    split_and!; [done | done | simpl; by rewrite lookup_insert_eq |].
    intros _. split.
    + unfold unpatch, mbind, stateful_bind, patched_getitem. by rewrite Hreg.
    + unfold unpatch, mbind, stateful_bind, patched_getitem. simpl.
      rewrite lookup_insert_eq. simpl. unfold patched_setitem. simpl.
      by rewrite insert_insert_eq.
Qed.

Lemma failed_patch_registers_module_witness :
  exists st',
    patch f_patch kfp_components interp0
    = (st', raise (AttributeError kfp_components "f")) /\
    unpatch kfp_components st' = (st', ok ()).
Proof.
  destruct (failed_patch_registers_module interp0 f_patch kfp_components)
    as (st' & Hrun & _ & _ & Hun).
  - vm_compute. reflexivity.
  - exists st'. split; [exact Hrun|]. apply Hun. vm_compute. reflexivity.
Defined.

(** X22: [patch(func, module)] and, on a sound registry, [unpatch(module)]
    touch nothing outside [module]: the attributes and the registry
    entries of every other module are as before, whether the call raised
    or not. *)
Theorem patch_and_unpatch_are_local st (func : pyobj) m m' :
  m' <> m ->
  ((forall b, attr_of (patch func m st).1 m' b = attr_of st m' b) /\
   patched (patch func m st).1 !! m' = patched st !! m') /\
  (registry_ok st m ->
   (forall b, attr_of (unpatch m st).1 m' b = attr_of st m' b) /\
   patched (unpatch m st).1 !! m' = patched st !! m').
Proof.
  intros Hne. split.
  - by apply patch_frame.
  - intros Hreg. destruct (patched st !! m) as [entries|] eqn:Hent.
    + destruct (unpatch_run st m entries Hreg Hent)
        as (st' & -> & Hpat & _ & _ & Hframe).
      cbn [fst]. split; [intros b; by apply Hframe|].
      rewrite Hpat. by rewrite lookup_insert_ne.
    + unfold unpatch, mbind, stateful_bind, patched_getitem. rewrite Hent.
      by split.
Qed.

Lemma patch_and_unpatch_are_local_witness :
  attr_of (patch wandb_version kfp_components interp_kfp).1 kfp_python_op
    "_get_function_source_definition" = Some get_source_original.
Proof.
  destruct (patch_and_unpatch_are_local interp_kfp wandb_version
              kfp_components kfp_python_op) as [[Hattr _] _].
  - discriminate.
  - rewrite Hattr. vm_compute. reflexivity.
Defined.

Lemma kfp_modules_differ : kfp_python_op <> kfp_components.
Proof. discriminate. Qed.

(** X23: when both kfp modules have their function and neither has been
    patched before, [patch_kfp()] installs the two functions of the shim,
    and [unpatch] of the one module and then of the other puts both
    originals back. *)
Theorem patch_kfp_round_trip st (c g : pyobj) :
  attr_of st kfp_components "create_component_from_func" = Some c ->
  attr_of st kfp_python_op "_get_function_source_definition" = Some g ->
  default [] (patched st !! kfp_components) = [] ->
  default [] (patched st !! kfp_python_op) = [] ->
  exists st2,
    patch_kfp st = (st2, ok ()) /\
    attr_of st2 kfp_components "create_component_from_func"
    = Some wandb_create_component_from_func /\
    attr_of st2 kfp_python_op "_get_function_source_definition"
    = Some wandb_get_function_source_definition /\
    exists st4,
      (unpatch kfp_components ;; unpatch kfp_python_op) st2 = (st4, ok ()) /\
      attr_of st4 kfp_components "create_component_from_func" = Some c /\
      attr_of st4 kfp_python_op "_get_function_source_definition" = Some g.
Proof.
  intros Hc Hg Hfresh1 Hfresh2.
  set (w1 := wandb_create_component_from_func).
  set (w2 := wandb_get_function_source_definition).
  pose proof kfp_modules_differ as Hne.
  assert (Hne' : kfp_components <> kfp_python_op) by (intros E; by apply Hne).
  (* first patch *)
  destruct (KfpPatchSpec.patch_run st w1 kfp_components c Hc)
    as (st1 & Hp1 & Hent1 & Hnew1 & Horig1 & _ & _).
  destruct (patch_frame st w1 kfp_components kfp_python_op Hne) as [Hfa1 Hfp1].
  rewrite Hp1 in Hfa1, Hfp1. cbn [fst] in Hfa1, Hfp1.
  assert (Hok1 : registry_ok st1 kfp_components).
  { apply (KfpPatchSpec.patch_registry_ok st w1 kfp_components st1); [|exact Hp1].
    by apply KfpPatchSpec.registry_ok_fresh. }
  assert (Hok1' : registry_ok st1 kfp_python_op).
  { apply KfpPatchSpec.registry_ok_fresh. by rewrite Hfp1. }
  (* second patch *)
  assert (Hg1 : attr_of st1 kfp_python_op (__name__ w2) = Some g)
    by (by rewrite Hfa1).
  destruct (KfpPatchSpec.patch_run st1 w2 kfp_python_op g Hg1)
    as (st2 & Hp2 & Hent2 & Hnew2 & Horig2 & _ & _).
  destruct (patch_frame st1 w2 kfp_python_op kfp_components Hne') as [Hfa2 Hfp2].
  rewrite Hp2 in Hfa2, Hfp2. cbn [fst] in Hfa2, Hfp2.
  assert (Hok2 : registry_ok st2 kfp_components)
    by (by apply (registry_ok_frame st1)).
  assert (Hok2' : registry_ok st2 kfp_python_op)
    by (by apply (KfpPatchSpec.patch_registry_ok st1 w2 kfp_python_op st2)).
  rewrite Hfresh1 in Hent1. rewrite Hfp1, Hfresh2 in Hent2.
  rewrite <- Hfp2 in Hent1. simpl in Hent1, Hent2.
  exists st2. split_and!.
  - unfold patch_kfp. by rewrite (KfpPatchSpec.bind_ok _ _ _ _ _ Hp1).
  - by rewrite Hfa2.
  - exact Hnew2.
  - (* first unpatch *)
    destruct (unpatch_run st2 kfp_components _ Hok2 Hent1)
      as (st3 & Hu1 & Hpat3 & Hin3 & _ & Hframe3).
    assert (Hok3 : registry_ok st3 kfp_python_op).
    { apply (registry_ok_frame st2); [|by intros; apply Hframe3|exact Hok2'].
      rewrite Hpat3. by rewrite lookup_insert_ne. }
    assert (Hent3 : patched st3 !! kfp_python_op
                    = Some [(kfp_python_op, __name__ w2)]).
    { rewrite Hpat3, lookup_insert_ne; [exact Hent2 | exact Hne']. }
    destruct (unpatch_run st3 kfp_python_op _ Hok3 Hent3)
      as (st4 & Hu2 & _ & Hin4 & _ & Hframe4).
    exists st4. split_and!.
    + by rewrite (KfpPatchSpec.bind_ok _ _ _ _ _ Hu1).
    + rewrite (Hframe4 _ _ Hne').
      rewrite (Hin3 "create_component_from_func").
      * rewrite Hfa2. exact Horig1.
      * simpl. apply list_elem_of_singleton. reflexivity.
      * simpl. intros Hin. apply list_elem_of_singleton in Hin.
        by apply KfpPatchSpec.orig_ne in Hin.
    + rewrite (Hin4 "_get_function_source_definition").
      * rewrite (Hframe3 _ _ Hne). exact Horig2.
      * simpl. apply list_elem_of_singleton. reflexivity.
      * simpl. intros Hin. apply list_elem_of_singleton in Hin.
        by apply KfpPatchSpec.orig_ne in Hin.
Qed.

Lemma patch_kfp_round_trip_witness :
  exists st2 st4,
    patch_kfp interp_kfp = (st2, ok ()) /\
    (unpatch kfp_components ;; unpatch kfp_python_op) st2 = (st4, ok ()) /\
    attr_of st4 kfp_components "create_component_from_func" = Some kfp_original /\
    attr_of st4 kfp_python_op "_get_function_source_definition"
    = Some get_source_original.
Proof.
  destruct (patch_kfp_round_trip interp_kfp kfp_original get_source_original)
    as (st2 & Hrun & _ & _ & st4 & Hun & Hc & Hg).
  - vm_compute. reflexivity.
  - vm_compute. reflexivity.
  - vm_compute. reflexivity.
  - vm_compute. reflexivity.
  - exists st2, st4. by split_and!.
Defined.

(** X24: [patch_kfp()] has no all-or-nothing behaviour, both modules
    being importable.  If [kfp.components] lacks the function, it raises
    at once and [kfp.components._python_op] is untouched; if only
    [kfp.components._python_op] lacks its function, it raises with the
    patch of [kfp.components] already installed and left in place. *)
Theorem patch_kfp_is_not_atomic st :
  is_Some (modules st !! kfp_components) ->
  is_Some (modules st !! kfp_python_op) ->
  (attr_of st kfp_components "create_component_from_func" = None ->
   exists st',
     patch_kfp st
     = (st', raise (AttributeError kfp_components "create_component_from_func")) /\
     (forall b, attr_of st' kfp_python_op b = attr_of st kfp_python_op b) /\
     patched st' !! kfp_python_op = patched st !! kfp_python_op) /\
  (forall c,
     attr_of st kfp_components "create_component_from_func" = Some c ->
     attr_of st kfp_python_op "_get_function_source_definition" = None ->
     exists st',
       patch_kfp st
       = (st', raise (AttributeError kfp_python_op
                        "_get_function_source_definition")) /\
       attr_of st' kfp_components "create_component_from_func"
       = Some wandb_create_component_from_func /\
       attr_of st' kfp_components "orig_create_component_from_func" = Some c /\
       (kfp_components, "create_component_from_func")
         ∈ default [] (patched st' !! kfp_components)).
Proof.
  set (w1 := wandb_create_component_from_func).
  set (w2 := wandb_get_function_source_definition).
  pose proof kfp_modules_differ as Hne.
  assert (Hne' : kfp_components <> kfp_python_op) by (intros E; by apply Hne).
  intros _ _. split.
  - intros Hnone.
    pose proof (patch_fail st w1 kfp_components Hnone) as Hp1.
    destruct (patch_frame st w1 kfp_components kfp_python_op Hne) as [Hfa Hfp].
    rewrite Hp1 in Hfa, Hfp. cbn [fst] in Hfa, Hfp.
    exists (patched_setdefault kfp_components st).1. split_and!; [|exact Hfa|exact Hfp].
    unfold patch_kfp, mbind, stateful_bind. fold w1. by rewrite Hp1.
  - intros c Hc Hnone.
    destruct (KfpPatchSpec.patch_run st w1 kfp_components c Hc)
      as (st1 & Hp1 & Hent1 & Hnew1 & Horig1 & _ & _).
    destruct (patch_frame st w1 kfp_components kfp_python_op Hne) as [Hfa1 _].
    rewrite Hp1 in Hfa1. cbn [fst] in Hfa1.
    assert (Hnone1 : attr_of st1 kfp_python_op (__name__ w2) = None)
      by (by rewrite Hfa1).
    pose proof (patch_fail st1 w2 kfp_python_op Hnone1) as Hp2.
    destruct (patch_frame st1 w2 kfp_python_op kfp_components Hne') as [Hfa2 Hfp2].
    rewrite Hp2 in Hfa2, Hfp2. cbn [fst] in Hfa2, Hfp2.
    exists (patched_setdefault kfp_python_op st1).1. split_and!.
    + unfold patch_kfp. rewrite (KfpPatchSpec.bind_ok _ _ _ _ _ Hp1). exact Hp2.
    + by rewrite Hfa2.
    + by rewrite Hfa2.
    + rewrite Hfp2, Hent1. simpl. apply elem_of_app. right.
      apply list_elem_of_singleton. reflexivity.
Qed.

Lemma patch_kfp_is_not_atomic_witness :
  exists st',
    patch_kfp interp_kfp_other
    = (st', raise (AttributeError kfp_python_op "_get_function_source_definition")) /\
    attr_of st' kfp_components "create_component_from_func"
    = Some wandb_create_component_from_func.
Proof.
  destruct (patch_kfp_is_not_atomic interp_kfp_other) as [_ Hsecond].
  - vm_compute. eauto.
  - vm_compute. eauto.
  - destruct (Hsecond kfp_original) as (st' & Hrun & Hattr & _).
    + vm_compute. reflexivity.
    + vm_compute. reflexivity.
    + exists st'. by split.
Defined.

(** X25: called with a list object, [create_component_from_func]
    extends that object by [wandb] and then calls kfp in a fixed order:
    the conversion, with what the list now holds; [MetadataSpec] exactly
    when [annotations] is not empty; [save] exactly when a non-empty file
    name was given, with the specification that the factory gets; the
    task factory.  The first call that raises ends the function with its
    exception and nothing is called after it; if none raises, the result
    is the factory, whose metadata is set only for non-empty
    annotations.  The list stays extended either way, and no other list
    object is touched. *)
Theorem create_component_with_packages (K : kfp_lib) func extra_code
    output_component_file base_image id annotations (st : kfp_state) :
  let packages := lists st id ++ ["wandb"] in
  let cs := expected_calls func extra_code output_component_file base_image
              packages annotations in
  let run := create_component_from_func K func extra_code output_component_file
               base_image (PyList id) annotations st in
  calls run.1 = calls st ++ (until_raise K cs).1 /\
  run.2 = match (until_raise K cs).2 with
          | Some e => raise e
          | None => ok {| component_spec_of :=
                            spec_for func extra_code base_image packages
                              annotations |}
          end /\
  ((forall c, c ∈ cs -> kfp_raises K c = None) ->
   calls run.1 = calls st ++ cs /\ exists factory, run.2 = ok factory) /\
  lists run.1 id = packages /\
  (forall id', id' <> id -> lists run.1 id' = lists st id').
Proof.
  cbv zeta. rewrite KfpPatchSpec.create_component_run. cbv zeta.
  cbn [fst snd calls lists]. split_and!; [done | done | | |].
  - intros Hfine.
    set (cs := expected_calls _ _ _ _ _ _) in *.
    assert (Hall : until_raise K cs = (cs, None)).
    { clearbody cs. induction cs as [|c cs IH]; [done|]. simpl.
      rewrite (Hfine c) by (by left).
      rewrite IH; [done|]. intros c' Hc'. apply Hfine. by right. }
    rewrite Hall. split; [done | by eexists].
  - unfold iadd. cbn [fst lists]. by rewrite decide_True.
  - intros id' Hne. unfold iadd. cbn [fst lists]. by rewrite decide_False.
Qed.

Lemma create_component_with_packages_witness :
  exists factory,
    (create_component_from_func kfp_fine wandb_create_component_from_func ""
       (Some "op.yaml") None (PyList 0) (Some [("team", "ml")]) kfp_state0).2
    = ok factory.
Proof.
  destruct (create_component_with_packages kfp_fine
              wandb_create_component_from_func "" (Some "op.yaml") None 0%nat
              (Some [("team", "ml")]) kfp_state0) as (_ & _ & Hfine & _).
  destruct Hfine as [_ Hok]; [intros c _; reflexivity | exact Hok].
Defined.

(** The conversions among the calls of one call with a list. *)
Lemma conversions_until_raise (K : kfp_lib) func extra_code output_component_file
    base_image packages annotations :
  conversions (until_raise K (expected_calls func extra_code output_component_file
                                base_image packages annotations)).1
  = [(func, packages)].
Proof.
  unfold expected_calls.
  destruct (truthy_list annotations), (truthy_string output_component_file);
    cbn [app until_raise];
    repeat match goal with
      | |- context [kfp_raises K ?c] => destruct (kfp_raises K c); cbn [until_raise]
      end;
    reflexivity.
Qed.

Lemma conversions_app cs1 cs2 :
  conversions (cs1 ++ cs2) = conversions cs1 ++ conversions cs2.
Proof. apply omap_app. Qed.

(** X26: [packages_to_install += [wandb]] extends the caller's list
    object, and does so before anything can go wrong in kfp.  When one
    list object is passed to [n] calls in turn, whatever each call's
    other arguments and outcome, the object ends with [n] more entries
    [wandb], no other list object has changed, and the conversion of
    call number [k] (from 0) was handed the original packages followed by
    [k+1] of them. *)
Theorem shared_packages_accumulate (K : kfp_lib) id (args : list component_args)
    (st : kfp_state) :
  let st' := create_in_turn K (PyList id) args st in
  lists st' id = lists st id ++ replicate (length args) "wandb" /\
  (forall id', id' <> id -> lists st' id' = lists st id') /\
  conversions (calls st')
  = conversions (calls st)
    ++ imap (fun k (x : component_args) =>
               (arg_func x, lists st id ++ replicate (S k) "wandb")) args.
Proof.
  cbv zeta. revert st. induction args as [|a args IH]; intros st.
  { simpl. rewrite !app_nil_r. done. }
  cbn [create_in_turn]. rewrite KfpPatchSpec.create_component_run. cbv zeta.
  cbn [fst].
  match goal with |- context [create_in_turn K (PyList id) args ?s] =>
    destruct (IH s) as (Hl & Hother & Hconv); set (st1 := s) in *
  end.
  assert (Hid : lists st1 id = lists st id ++ ["wandb"]).
  { unfold st1, iadd. cbn [lists fst]. by rewrite decide_True. }
  split_and!.
  - rewrite Hl, Hid. cbn [length replicate]. by rewrite <- app_assoc.
  - intros id' Hne. rewrite (Hother id' Hne). unfold st1, iadd. cbn [lists fst].
    by rewrite decide_False.
  - rewrite Hconv. unfold st1 at 1. cbn [calls].
    rewrite conversions_app, conversions_until_raise, <- app_assoc.
    f_equal. cbn [imap app]. f_equal.
    apply imap_ext. intros k a' _. cbn. rewrite decide_True by done.
    by rewrite <- app_assoc.
Qed.

End KfpShimFacts.
